(** * insight-growth: the learning-item synchronisation layer

    A shallow embedding of the data-handling code of the front end:
    - [src/hooks/useSupabaseSubscription.ts]: [usePaperSubscription] and
      [useLearningItemsSubscription];
    - [src/components/learning-steps/VideoExplanationStep.tsx]: the effect
      that extracts the video descriptors;
    - [src/components/ui-components/LearningJourney.tsx]: the effect that
      filters and orders the steps.

    Rows, payloads and items are JavaScript objects; they are modelled as
    association lists in property order, over a small type of JavaScript
    values. *)

From Stdlib Require Import List String Ascii Bool Arith Lia ZArith.
From Stdlib Require Import DecimalString.
Import ListNotations.
Open Scope string_scope.
Open Scope list_scope.
Set Warnings "-register-all".

(** ** JavaScript values *)

Module JS.

(** Numbers are only tested for truthiness and strict equality, and printed
    in a URL, by the code below, so they are kept as integers. *)
Inductive value : Type :=
| VUndefined
| VNull
| VBool (b : bool)
| VNum (n : Z)
| VStr (s : string)
| VArr (elems : list value)
| VObj (props : list (string * value)).

(** An object: its own enumerable properties, in property order. *)
Definition obj := list (string * value).

(** [Boolean(v)] *)
Definition truthy (v : value) : bool :=
  match v with
  | VUndefined | VNull => false
  | VBool b => b
  | VNum n => negb (Z.eqb n 0)
  | VStr s => negb (String.eqb s "")
  | VArr _ | VObj _ => true
  end.

(** [a || b] *)
Definition or_else (a b : value) : value := if truthy a then a else b.

(** [a === b].  Arrays and objects are compared by reference in JavaScript;
    every row, payload and item here is deserialised from a message of its
    own, so two of them never share a reference: the comparison is false. *)
Definition strict_eq (a b : value) : bool :=
  match a, b with
  | VUndefined, VUndefined => true
  | VNull, VNull => true
  | VBool x, VBool y => Bool.eqb x y
  | VNum x, VNum y => Z.eqb x y
  | VStr x, VStr y => String.eqb x y
  | _, _ => false
  end.

(** [o.k] on an object: [undefined] when the property is absent. *)
Fixpoint lookup (k : string) (o : obj) : value :=
  match o with
  | [] => VUndefined
  | (k', v) :: o' => if String.eqb k k' then v else lookup k o'
  end.

(** [v?.k]: [undefined] on [null] and [undefined]; the keys read by the
    code (title, content, metadata, video, videos, video_id) are not
    properties of strings, numbers, booleans or arrays. *)
Definition get_opt (v : value) (k : string) : value :=
  match v with
  | VObj o => lookup k o
  | _ => VUndefined
  end.

(** Defining property [k] in an object literal: an existing property keeps
    its place and takes the new value, a new one goes last. *)
Fixpoint set (k : string) (v : value) (o : obj) : obj :=
  match o with
  | [] => [(k, v)]
  | (k', v') :: o' =>
      if String.eqb k k' then (k, v) :: o' else (k', v') :: set k v o'
  end.

Definition is_array (v : value) : bool :=
  match v with VArr _ => true | _ => false end.

Definition index_key (n : nat) : string :=
  NilEmpty.string_of_uint (Nat.to_uint n).

Fixpoint indexed (n : nat) (l : list value) : obj :=
  match l with
  | [] => []
  | v :: l' => (index_key n, v) :: indexed (S n) l'
  end.

Fixpoint chars (s : string) : list value :=
  match s with
  | EmptyString => []
  | String c s' => VStr (String c EmptyString) :: chars s'
  end.

(** [{...v}]: the own enumerable properties of [v]. *)
Definition spread (v : value) : obj :=
  match v with
  | VObj o => o
  | VArr l => indexed 0 l
  | VStr s => indexed 0 (chars s)
  | _ => []
  end.

(** [String(v)], as a template literal converts its holes. *)
Fixpoint to_string (v : value) : string :=
  match v with
  | VUndefined => "undefined"
  | VNull => "null"
  | VBool true => "true"
  | VBool false => "false"
  | VNum n => NilZero.string_of_int (Z.to_int n)
  | VStr s => s
  | VArr l =>
      let elem x :=
        match x with
        | VUndefined | VNull => ""
        | _ => to_string x
        end in
      (fix join (l : list value) : string :=
         match l with
         | [] => ""
         | [x] => elem x
         | x :: rest => elem x ++ "," ++ join rest
         end)%string l
  | VObj _ => "[object Object]"
  end.

(** Outcome of code that can throw. *)
Inductive result (A : Type) : Type :=
| Ok (a : A)
| Throw (msg : string).
Arguments Ok {A} a.
Arguments Throw {A} msg.

Definition bind {A B} (r : result A) (f : A -> result B) : result B :=
  match r with
  | Ok a => f a
  | Throw m => Throw m
  end.

(** [v.k]: a TypeError on [null] and [undefined]. *)
Definition get (v : value) (k : string) : result value :=
  match v with
  | VUndefined | VNull => Throw "TypeError: cannot read properties"
  | _ => Ok (get_opt v k)
  end.

End JS.

Import JS.

Notation "x <- r ;; k" := (bind r (fun x => k))
  (at level 61, r at next level, right associativity).

(** ** Learning items: [useLearningItemsSubscription] *)

Module Items.

(** What the evaluations of [new Date().toISOString()] return during the
    transformation of one record: one for [created_at], one for
    [updated_at]. *)
Record clock_reads : Type := {
  created_now : string;
  updated_now : string
}.

Definition item_id (i : obj) : value := lookup "id" i.
Definition item_type (i : obj) : value := lookup "type" i.

(** The object literal shared by the fetch and the two handlers. *)
Definition baseItem (clk : clock_reads) (item : obj) : obj :=
  let data := lookup "data" item in
  set "updated_at"
      (or_else (lookup "updated_at" item) (VStr (updated_now clk)))
  (set "created_at"
      (or_else (lookup "created_at" item) (VStr (created_now clk)))
  (set "metadata" (or_else (get_opt data "metadata") (VObj []))
  (set "content" (or_else (get_opt data "content") (VStr ""))
  (set "title" (or_else (get_opt data "title") (VStr "")) item)))).

Definition with_videos (raw base : obj) : obj :=
  set "videos"
      (or_else (or_else (lookup "videos" raw)
                        (get_opt (lookup "metadata" base) "videos"))
               VNull)
      base.

(** The callback of [data.map] in [fetchInitialData]. *)
Definition transformFetched (clk : clock_reads) (item : obj) : obj :=
  let base := baseItem clk item in
  if strict_eq (item_type item) (VStr "video") then with_videos item base
  else if strict_eq (item_type item) (VStr "quiz") then base
  else if strict_eq (item_type item) (VStr "flashcard") then base
  else base.

(** The transformation of [payload.new] in the INSERT and UPDATE handlers. *)
Definition transformPayload (clk : clock_reads) (raw : obj) : obj :=
  let newItem := baseItem clk raw in
  if strict_eq (item_type raw) (VStr "video") then with_videos raw newItem
  else newItem.

Inductive bucket : Type :=
| Video | Quiz | Flashcard | Concepts | Methodology | Results.

Definition all_buckets : list bucket :=
  [Video; Quiz; Flashcard; Concepts; Methodology; Results].

Definition tag (b : bucket) : string :=
  match b with
  | Video => "video"
  | Quiz => "quiz"
  | Flashcard => "flashcard"
  | Concepts => "concepts"
  | Methodology => "methodology"
  | Results => "results"
  end.

(** The [switch] on a type tag: the matching [case], if any. *)
Definition bucket_of (ty : value) : option bucket :=
  if strict_eq ty (VStr "video") then Some Video
  else if strict_eq ty (VStr "quiz") then Some Quiz
  else if strict_eq ty (VStr "flashcard") then Some Flashcard
  else if strict_eq ty (VStr "concepts") then Some Concepts
  else if strict_eq ty (VStr "methodology") then Some Methodology
  else if strict_eq ty (VStr "results") then Some Results
  else None.

(** The React state of the hook. *)
Record state : Type := {
  learningItems : list obj;
  videoItems : list obj;
  quizItems : list obj;
  flashcardItems : list obj;
  keyConceptsItems : list obj;
  methodologyItems : list obj;
  resultsItems : list obj;
  isLoading : bool;
  error : option string
}.

Definition initial : state :=
  {| learningItems := []; videoItems := []; quizItems := [];
     flashcardItems := []; keyConceptsItems := []; methodologyItems := [];
     resultsItems := []; isLoading := true; error := None |}.

Definition bucket_items (b : bucket) (s : state) : list obj :=
  match b with
  | Video => videoItems s
  | Quiz => quizItems s
  | Flashcard => flashcardItems s
  | Concepts => keyConceptsItems s
  | Methodology => methodologyItems s
  | Results => resultsItems s
  end.

Definition setLearningItems (f : list obj -> list obj) (s : state) : state :=
  {| learningItems := f (learningItems s); videoItems := videoItems s;
     quizItems := quizItems s; flashcardItems := flashcardItems s;
     keyConceptsItems := keyConceptsItems s;
     methodologyItems := methodologyItems s;
     resultsItems := resultsItems s;
     isLoading := isLoading s; error := error s |}.

Definition setVideoItems (f : list obj -> list obj) (s : state) : state :=
  {| learningItems := learningItems s; videoItems := f (videoItems s);
     quizItems := quizItems s; flashcardItems := flashcardItems s;
     keyConceptsItems := keyConceptsItems s;
     methodologyItems := methodologyItems s;
     resultsItems := resultsItems s;
     isLoading := isLoading s; error := error s |}.

Definition setQuizItems (f : list obj -> list obj) (s : state) : state :=
  {| learningItems := learningItems s; videoItems := videoItems s;
     quizItems := f (quizItems s); flashcardItems := flashcardItems s;
     keyConceptsItems := keyConceptsItems s;
     methodologyItems := methodologyItems s;
     resultsItems := resultsItems s;
     isLoading := isLoading s; error := error s |}.

Definition setFlashcardItems (f : list obj -> list obj) (s : state) : state :=
  {| learningItems := learningItems s; videoItems := videoItems s;
     quizItems := quizItems s; flashcardItems := f (flashcardItems s);
     keyConceptsItems := keyConceptsItems s;
     methodologyItems := methodologyItems s;
     resultsItems := resultsItems s;
     isLoading := isLoading s; error := error s |}.

Definition setKeyConceptsItems (f : list obj -> list obj) (s : state) : state :=
  {| learningItems := learningItems s; videoItems := videoItems s;
     quizItems := quizItems s; flashcardItems := flashcardItems s;
     keyConceptsItems := f (keyConceptsItems s);
     methodologyItems := methodologyItems s;
     resultsItems := resultsItems s;
     isLoading := isLoading s; error := error s |}.

Definition setMethodologyItems (f : list obj -> list obj) (s : state) : state :=
  {| learningItems := learningItems s; videoItems := videoItems s;
     quizItems := quizItems s; flashcardItems := flashcardItems s;
     keyConceptsItems := keyConceptsItems s;
     methodologyItems := f (methodologyItems s);
     resultsItems := resultsItems s;
     isLoading := isLoading s; error := error s |}.

Definition setResultsItems (f : list obj -> list obj) (s : state) : state :=
  {| learningItems := learningItems s; videoItems := videoItems s;
     quizItems := quizItems s; flashcardItems := flashcardItems s;
     keyConceptsItems := keyConceptsItems s;
     methodologyItems := methodologyItems s;
     resultsItems := f (resultsItems s);
     isLoading := isLoading s; error := error s |}.

(** The body of a [switch (ty)] whose six cases call the setter of their
    bucket with the same updater; no [default]. *)
Definition switch_bucket (ty : value) (f : list obj -> list obj)
    (s : state) : state :=
  match bucket_of ty with
  | Some Video => setVideoItems f s
  | Some Quiz => setQuizItems f s
  | Some Flashcard => setFlashcardItems f s
  | Some Concepts => setKeyConceptsItems f s
  | Some Methodology => setMethodologyItems f s
  | Some Results => setResultsItems f s
  | None => s
  end.

Definition has_type (t : string) (i : obj) : bool :=
  strict_eq (item_type i) (VStr t).

(** [data.map(item => ...)], the record at position [n] reading [clk n]. *)
Fixpoint transformAll (clk : nat -> clock_reads) (n : nat)
    (data : list obj) : list obj :=
  match data with
  | [] => []
  | item :: rest => transformFetched (clk n) item :: transformAll clk (S n) rest
  end.

(** The [try] block of [fetchInitialData] on a successful answer, followed by
    its [finally]; [data] is [None] when the answer carries no rows. *)
Definition onFetched (clk : nat -> clock_reads) (data : option (list obj))
    (s : state) : state :=
  match data with
  | Some rows =>
      let transformedItems := transformAll clk 0 rows in
      {| learningItems := transformedItems;
         videoItems := filter (has_type "video") transformedItems;
         quizItems := filter (has_type "quiz") transformedItems;
         flashcardItems := filter (has_type "flashcard") transformedItems;
         keyConceptsItems := filter (has_type "concepts") transformedItems;
         methodologyItems := filter (has_type "methodology") transformedItems;
         resultsItems := filter (has_type "results") transformedItems;
         isLoading := false; error := error s |}
  | None =>
      {| learningItems := learningItems s; videoItems := videoItems s;
         quizItems := quizItems s; flashcardItems := flashcardItems s;
         keyConceptsItems := keyConceptsItems s;
         methodologyItems := methodologyItems s;
         resultsItems := resultsItems s;
         isLoading := false; error := error s |}
  end.

(** The [catch] and [finally] of [fetchInitialData]. *)
Definition onFetchFailed (msg : string) (s : state) : state :=
  {| learningItems := learningItems s; videoItems := videoItems s;
     quizItems := quizItems s; flashcardItems := flashcardItems s;
     keyConceptsItems := keyConceptsItems s;
     methodologyItems := methodologyItems s;
     resultsItems := resultsItems s;
     isLoading := false; error := Some msg |}.

(** The INSERT handler. *)
Definition onInsert (clk : clock_reads) (newItemRaw : obj) (s : state) : state :=
  let newItem := transformPayload clk newItemRaw in
  switch_bucket (item_type newItemRaw) (fun current => current ++ [newItem])
    (setLearningItems (fun current => current ++ [newItem]) s).

Definition replace_by_id (updatedItem : obj) (current : list obj) : list obj :=
  map (fun item =>
         if strict_eq (item_id item) (item_id updatedItem)
         then updatedItem else item) current.

(** The UPDATE handler. *)
Definition onUpdate (clk : clock_reads) (updatedItemRaw : obj) (s : state)
    : state :=
  let updatedItem := transformPayload clk updatedItemRaw in
  switch_bucket (item_type updatedItem) (replace_by_id updatedItem)
    (setLearningItems (replace_by_id updatedItem) s).

Definition remove_by_id (deletedItem : obj) (current : list obj) : list obj :=
  filter (fun item => negb (strict_eq (item_id item) (item_id deletedItem)))
         current.

(** The DELETE handler; [deletedItem] is [payload.old]. *)
Definition onDelete (deletedItem : obj) (s : state) : state :=
  switch_bucket (item_type deletedItem) (remove_by_id deletedItem)
    (setLearningItems (remove_by_id deletedItem) s).

(** A change notification of the items channel. *)
Inductive notification : Type :=
| INSERT (clk : clock_reads) (new : obj)
| UPDATE (clk : clock_reads) (new : obj)
| DELETE (old : obj).

Definition apply (s : state) (n : notification) : state :=
  match n with
  | INSERT clk new => onInsert clk new s
  | UPDATE clk new => onUpdate clk new s
  | DELETE old => onDelete old s
  end.

(** Notifications are handled one at a time, in arrival order. *)
Definition run (s : state) (ns : list notification) : state :=
  fold_left apply ns s.

(** The hook as a whole: the effect re-runs when [paperId] changes, the
    fetch it starts is answered later, and notifications reach the handlers
    of the channel that is subscribed. *)
Record hook : Type := {
  deps : option string;       (* the [paperId] the effect last ran with *)
  st : state;
  channel : option string;    (* the subscribed channel's [paperId] *)
  inflight : list string      (* fetches not yet answered, by [paperId] *)
}.

Definition mount : hook :=
  {| deps := None; st := initial; channel := None; inflight := [] |}.

Inductive event : Type :=
| Render (paperId : string)
| FetchOk (requested : string) (clk : nat -> clock_reads)
          (data : option (list obj))
| FetchErr (requested : string) (msg : string)
| Notify (chan : string) (n : notification).

Fixpoint remove_first (x : string) (l : list string) : list string :=
  match l with
  | [] => []
  | y :: l' => if String.eqb x y then l' else y :: remove_first x l'
  end.

Definition awaiting (x : string) (l : list string) : bool :=
  existsb (String.eqb x) l.

Definition setIsLoading (b : bool) (s : state) : state :=
  {| learningItems := learningItems s; videoItems := videoItems s;
     quizItems := quizItems s; flashcardItems := flashcardItems s;
     keyConceptsItems := keyConceptsItems s;
     methodologyItems := methodologyItems s;
     resultsItems := resultsItems s;
     isLoading := b; error := error s |}.

Definition step (h : hook) (e : event) : hook :=
  match e with
  | Render paperId =>
      if match deps h with Some d => String.eqb d paperId | None => false end
      then h
      else if String.eqb paperId ""
      then {| deps := Some paperId; st := st h; channel := None;
              inflight := inflight h |}
      else {| deps := Some paperId; st := setIsLoading true (st h);
              channel := Some paperId;
              inflight := inflight h ++ [paperId] |}
  | FetchOk requested clk data =>
      if awaiting requested (inflight h)
      then {| deps := deps h; st := onFetched clk data (st h);
              channel := channel h;
              inflight := remove_first requested (inflight h) |}
      else h
  | FetchErr requested msg =>
      if awaiting requested (inflight h)
      then {| deps := deps h; st := onFetchFailed msg (st h);
              channel := channel h;
              inflight := remove_first requested (inflight h) |}
      else h
  | Notify chan n =>
      match channel h with
      | Some c =>
          if String.eqb c chan
          then {| deps := deps h; st := apply (st h) n;
                  channel := channel h; inflight := inflight h |}
          else h
      | None => h
      end
  end.

Definition steps (h : hook) (es : list event) : hook := fold_left step es h.

End Items.

(** ** The paper snapshot: [usePaperSubscription] *)

Module Paper.

(** The computation of [pdfUrl] in [fetchInitialData]. *)
Definition resolvePdfUrl (data : obj) : value :=
  let pdfUrl := lookup "pdf_url" data in
  if negb (truthy pdfUrl) then
    if strict_eq (lookup "source_type" data) (VStr "arxiv")
       && truthy (lookup "arxiv_id" data)
    then VStr ("https://arxiv.org/pdf/" ++ to_string (lookup "arxiv_id" data))
    else if strict_eq (lookup "source_type" data) (VStr "pdf")
    then lookup "source_url" data
    else pdfUrl
  else pdfUrl.

(** The React state of the hook, the [paperId] of the last effect, the
    fetches in flight and the live subscription.  The subscription's
    callback is created by the effect: the [initialPdfUrl] it reads is the
    constant of the render whose effect ran, kept in [channel] next to the
    channel's [paperId]. *)
Record hook : Type := {
  deps : option string;
  paper : option obj;
  isLoading : bool;
  error : option string;
  initialPdfUrl : value;
  channel : option (string * value);
  inflight : list string
}.

Definition mount : hook :=
  {| deps := None; paper := None; isLoading := true; error := None;
     initialPdfUrl := VNull; channel := None; inflight := [] |}.

Inductive event : Type :=
| Render (paperId : string)
| FetchOk (requested : string) (data : obj)
| FetchErr (requested : string) (msg : string)
| Update (chan : string) (new : obj).

(** The updater passed to [setPaper] by the UPDATE handler. *)
Definition mergeUpdate (closedInitialPdfUrl : value) (updatedData : obj)
    (currentPaper : option obj) : option obj :=
  match currentPaper with
  | None => None
  | Some cur =>
      Some (set "pdf_url"
                (or_else closedInitialPdfUrl (lookup "pdf_url" cur))
                updatedData)
  end.

Definition step (h : hook) (e : event) : hook :=
  match e with
  | Render paperId =>
      if match deps h with Some d => String.eqb d paperId | None => false end
      then h
      else if String.eqb paperId ""
      then {| deps := Some paperId; paper := paper h;
              isLoading := isLoading h; error := error h;
              initialPdfUrl := initialPdfUrl h; channel := None;
              inflight := inflight h |}
      else {| deps := Some paperId; paper := paper h;
              isLoading := true; error := error h;
              initialPdfUrl := initialPdfUrl h;
              channel := Some (paperId, initialPdfUrl h);
              inflight := inflight h ++ [paperId] |}
  | FetchOk requested data =>
      if Items.awaiting requested (inflight h)
      then let pdfUrl := resolvePdfUrl data in
           {| deps := deps h;
              paper := Some (set "pdf_url" pdfUrl data);
              isLoading := false; error := error h;
              initialPdfUrl := pdfUrl; channel := channel h;
              inflight := Items.remove_first requested (inflight h) |}
      else h
  | FetchErr requested msg =>
      if Items.awaiting requested (inflight h)
      then {| deps := deps h; paper := paper h;
              isLoading := false; error := Some msg;
              initialPdfUrl := initialPdfUrl h; channel := channel h;
              inflight := Items.remove_first requested (inflight h) |}
      else h
  | Update chan new =>
      match channel h with
      | Some (c, closedInitialPdfUrl) =>
          if String.eqb c chan
          then {| deps := deps h;
                  paper := mergeUpdate closedInitialPdfUrl new (paper h);
                  isLoading := isLoading h; error := error h;
                  initialPdfUrl := initialPdfUrl h; channel := channel h;
                  inflight := inflight h |}
          else h
      | None => h
      end
  end.

Definition steps (h : hook) (es : list event) : hook := fold_left step es h.

(** The snapshot's document URL. *)
Definition pdf_url (h : hook) : value :=
  match paper h with
  | Some p => lookup "pdf_url" p
  | None => VUndefined
  end.

End Paper.

(** ** Video descriptors: the extraction effect of [VideoExplanationStep] *)

Module Videos.

(** [a && a.k], tested for truthiness. *)
Definition has_field (a : value) (k : string) : bool :=
  truthy a && truthy (get_opt a k).

(** The [if ... else if] chain: the value left in [videos]. *)
Definition locate (videoItem : obj) : result value :=
  let metadata := lookup "metadata" videoItem in
  let data := lookup "data" videoItem in
  if truthy (get_opt metadata "video") then
    video <- get metadata "video" ;; Ok (VArr [video])
  else if truthy (get_opt data "video") then
    video <- get data "video" ;; Ok (VArr [video])
  else if is_array (get_opt metadata "videos") then
    get metadata "videos"
  else if truthy (lookup "videos" videoItem) then
    Ok (if is_array (lookup "videos" videoItem)
        then lookup "videos" videoItem
        else VArr [lookup "videos" videoItem])
  else if truthy (get_opt data "videos") then
    get data "videos"
  else if has_field data "video_id" then
    Ok (VArr [data])
  else if has_field metadata "video_id" then
    Ok (VArr [metadata])
  else Ok (VArr []).

(** [{...video, itemId: videoItem.id}] *)
Definition descriptor (videoItem : obj) (video : value) : obj :=
  set "itemId" (lookup "id" videoItem) (spread video).

(** [videos.forEach(video => extractedVideos.push(...))]: only an array has
    a [forEach]. *)
Definition pushAll (videoItem : obj) (videos : value)
    (extractedVideos : list obj) : result (list obj) :=
  match videos with
  | VArr l => Ok (extractedVideos ++ map (descriptor videoItem) l)
  | _ => Throw "TypeError: videos.forEach is not a function"
  end.

(** The callback of [videoItems.forEach]. *)
Definition extractItem (extractedVideos : list obj) (videoItem : obj)
    : result (list obj) :=
  videos <- locate videoItem ;; pushAll videoItem videos extractedVideos.

Fixpoint extractAll (extractedVideos : list obj) (videoItems : list obj)
    : result (list obj) :=
  match videoItems with
  | [] => Ok extractedVideos
  | videoItem :: rest =>
      acc <- extractItem extractedVideos videoItem ;; extractAll acc rest
  end.

(** The effect: the new value of [allVideos]. *)
Definition extractEffect (videoItems : list obj) (allVideos : list obj)
    : result (list obj) :=
  match videoItems with
  | [] => Ok allVideos
  | _ => extractAll [] videoItems
  end.

(** The seven tests of the chain, in source order. *)
Inductive shape : Type :=
| MetadataVideo | DataVideo | MetadataVideos | ItemVideos | DataVideos
| DataVideoId | MetadataVideoId.

Definition shapes : list shape :=
  [MetadataVideo; DataVideo; MetadataVideos; ItemVideos; DataVideos;
   DataVideoId; MetadataVideoId].

Definition matches (sh : shape) (videoItem : obj) : bool :=
  let metadata := lookup "metadata" videoItem in
  let data := lookup "data" videoItem in
  match sh with
  | MetadataVideo => truthy (get_opt metadata "video")
  | DataVideo => truthy (get_opt data "video")
  | MetadataVideos => is_array (get_opt metadata "videos")
  | ItemVideos => truthy (lookup "videos" videoItem)
  | DataVideos => truthy (get_opt data "videos")
  | DataVideoId => has_field data "video_id"
  | MetadataVideoId => has_field metadata "video_id"
  end.

(** What each branch leaves in [videos]. *)
Definition payload (sh : shape) (videoItem : obj) : value :=
  let metadata := lookup "metadata" videoItem in
  let data := lookup "data" videoItem in
  match sh with
  | MetadataVideo => VArr [get_opt metadata "video"]
  | DataVideo => VArr [get_opt data "video"]
  | MetadataVideos => get_opt metadata "videos"
  | ItemVideos =>
      if is_array (lookup "videos" videoItem)
      then lookup "videos" videoItem
      else VArr [lookup "videos" videoItem]
  | DataVideos => get_opt data "videos"
  | DataVideoId => VArr [data]
  | MetadataVideoId => VArr [metadata]
  end.

Definition first_match (videoItem : obj) : option shape :=
  find (fun sh => matches sh videoItem) shapes.

(** The six shapes of the specification, section 4.3, in its order: a single
    video object at the metadata path; one at the data path; an array under
    the metadata path; video object(s) attached directly to the item; a data
    object with a video identifier; a metadata object with one. *)
Definition spec_shapes : list shape :=
  [MetadataVideo; DataVideo; MetadataVideos; ItemVideos;
   DataVideoId; MetadataVideoId].

Definition spec_matches_none (videoItem : obj) : bool :=
  forallb (fun sh => negb (matches sh videoItem)) spec_shapes.

End Videos.

(** ** Step filtering: the filter effect of [LearningJourney] *)

Module Journey.

(** [element.type]: a host tag, a function component (with its [name]), or
    anything else (a memo or forward-ref object, a fragment), whose [name]
    is [undefined]. *)
Inductive elemType : Type :=
| Host (tagName : string)
| Component (name : string)
| Exotic.

(** A React node.  [title] is [props.title], empty when the prop is absent;
    [children] is [props.children]. *)
Inductive node : Type :=
| Empty
| Text (s : string)
| Element (ty : elemType) (title : string) (children : node)
| Nodes (l : list node).

Definition node_truthy (n : node) : bool :=
  match n with
  | Empty => false
  | Text s => negb (String.eqb s "")
  | _ => true
  end.

(** [s.includes(pat)] *)
Fixpoint includes (s pat : string) : bool :=
  if String.prefix pat s then true
  else match s with
       | EmptyString => false
       | String _ s' => includes s' pat
       end.

Fixpoint findLearningStepCard (children : node) : string :=
  if negb (node_truthy children) then ""
  else match children with
       | Nodes l =>
           (fix loop (l : list node) : string :=
              match l with
              | [] => ""
              | child :: rest =>
                  let result := findLearningStepCard child in
                  if negb (String.eqb result "") then result else loop rest
              end) l
       | Element _ title _ => title
       | _ => ""
       end.

(** The title found by the [try] block. *)
Definition stepTitle (step : node) : string :=
  match step with
  | Element _ title children =>
      if negb (String.eqb title "") then title
      else if node_truthy children then findLearningStepCard children
      else ""
  | _ => ""
  end.

(** [typeof stepElement.type !== 'string' && stepElement.type.name === n];
    reading [type] of [null], or [name] of the [undefined] type of a string
    or array, throws. *)
Definition name_is (step : node) (n : string) : result bool :=
  match step with
  | Element (Host _) _ _ => Ok false
  | Element (Component name) _ _ => Ok (String.eqb name n)
  | Element Exotic _ _ => Ok false
  | _ => Throw "TypeError: cannot read properties"
  end.

(** [stepTitle.includes(t) || name_is n] *)
Definition title_or_name (step : node) (t n : string) : result bool :=
  if includes (stepTitle step) t then Ok true else name_is step n.

Inductive ContentType : Type :=
| all | reading | video | quiz | flashcard | slides | consulting.

Record readingStep : Type := {
  rs_step : node;
  rs_index : nat;
  rs_type : string;
  rs_order : nat
}.

(** The type and order that the [if ... else if] chain of the reading
    branch assigns. *)
Definition classify (step : node) : result (string * nat) :=
  b1 <- title_or_name step "Paper Summary" "SummaryStep" ;;
  if b1 then Ok ("summary", 1) else
  b2 <- title_or_name step "Key Concepts" "KeyConceptsStep" ;;
  if b2 then Ok ("concepts", 2) else
  b3 <- title_or_name step "Methodology" "MethodologyStep" ;;
  if b3 then Ok ("methodology", 3) else
  b4 <- title_or_name step "Results" "ResultsStep" ;;
  if b4 then Ok ("results", 4) else Ok ("", 999).

Definition is_reading_type (t : string) : bool :=
  existsb (String.eqb t) ["summary"; "concepts"; "methodology"; "results"].

(** One round of the first [steps.forEach] of the reading branch; the
    [catch] logs and goes on. *)
Definition collect (readingSteps : list readingStep) (step : node)
    (index : nat) : list readingStep :=
  match classify step with
  | Ok (stepType, order) =>
      if is_reading_type stepType
      then readingSteps ++
           [{| rs_step := step; rs_index := index;
               rs_type := stepType; rs_order := order |}]
      else readingSteps
  | Throw _ => readingSteps
  end.

Fixpoint collectAll (readingSteps : list readingStep) (index : nat)
    (steps : list node) : list readingStep :=
  match steps with
  | [] => readingSteps
  | step :: rest => collectAll (collect readingSteps step index) (S index) rest
  end.

(** [readingSteps.sort((a, b) => a.order - b.order)]: the sort of an array is
    stable. *)
Fixpoint insert (a : readingStep) (l : list readingStep) : list readingStep :=
  match l with
  | [] => [a]
  | b :: l' => if Nat.leb (rs_order a) (rs_order b) then a :: l else b :: insert a l'
  end.

Fixpoint sort (l : list readingStep) : list readingStep :=
  match l with
  | [] => []
  | a :: l' => insert a (sort l')
  end.

(** The outcome of the effect: [filteredSteps], [stepMap] (the pairs
    position, original index in the order they are written) and
    [currentStep]. *)
Record view : Type := {
  filteredSteps : list node;
  stepMap : list (nat * nat);
  currentStep : nat
}.

(** [map[filtered.length] = index; filtered.push(step)] *)
Definition push (acc : list node * list (nat * nat)) (step : node)
    (index : nat) : list node * list (nat * nat) :=
  (fst acc ++ [step], snd acc ++ [(List.length (fst acc), index)]).

(** The condition of the branch of the other filters. *)
Definition selected (activeFilter : ContentType) (step : node) : result bool :=
  match activeFilter with
  | video => title_or_name step "Video Explanation" "VideoExplanationStep"
  | quiz => title_or_name step "Comprehension Quiz" "QuizStep"
  | flashcard => title_or_name step "Flashcards" "FlashcardsStep"
  | consulting => title_or_name step "Expert Consulting" "ConsultingStep"
  | _ => Ok false
  end.

Fixpoint selectAll (activeFilter : ContentType)
    (acc : list node * list (nat * nat)) (index : nat) (steps : list node)
    : result (list node * list (nat * nat)) :=
  match steps with
  | [] => Ok acc
  | step :: rest =>
      b <- selected activeFilter step ;;
      selectAll activeFilter (if b then push acc step index else acc)
                (S index) rest
  end.

Fixpoint identityMap (index : nat) (steps : list node) : list (nat * nat) :=
  match steps with
  | [] => []
  | _ :: rest => (index, index) :: identityMap (S index) rest
  end.

Definition finish (currentStep0 : nat) (acc : list node * list (nat * nat))
    : view :=
  {| filteredSteps := fst acc; stepMap := snd acc;
     currentStep := match fst acc with [] => currentStep0 | _ => 0 end |}.

(** The effect on [activeFilter] and [steps]; [currentStep0] is the value of
    [currentStep] before it. *)
Definition filterEffect (activeFilter : ContentType) (steps : list node)
    (currentStep0 : nat) : result view :=
  match activeFilter with
  | all =>
      Ok {| filteredSteps := steps; stepMap := identityMap 0 steps;
            currentStep := currentStep0 |}
  | reading =>
      let readingSteps := sort (collectAll [] 0 steps) in
      Ok (finish currentStep0
            (fold_left (fun acc item => push acc (rs_step item) (rs_index item))
                       readingSteps ([], [])))
  | _ =>
      acc <- selectAll activeFilter ([], []) 0 steps ;;
      Ok (finish currentStep0 acc)
  end.

(** The order number of a step in the reading sequence, if it is a reading
    step. *)
Definition reading_order (step : node) : option nat :=
  match classify step with
  | Ok (stepType, order) => if is_reading_type stepType then Some order else None
  | Throw _ => None
  end.

Definition has_order (k : nat) (step : node) : bool :=
  match reading_order step with
  | Some o => Nat.eqb o k
  | None => false
  end.

Definition keeps (activeFilter : ContentType) (step : node) : bool :=
  match selected activeFilter step with
  | Ok b => b
  | Throw _ => false
  end.

Definition is_element (step : node) : bool :=
  match step with Element _ _ _ => true | _ => false end.

End Journey.

(** ** The properties of the item lists *)

Module ItemsSpec.

Import Items.

Definition bucket_eqb (a b : bucket) : bool :=
  match a, b with
  | Video, Video | Quiz, Quiz | Flashcard, Flashcard
  | Concepts, Concepts | Methodology, Methodology | Results, Results => true
  | _, _ => false
  end.

Definition same_bucket (a b : option bucket) : bool :=
  match a, b with
  | Some x, Some y => bucket_eqb x y
  | None, None => true
  | _, _ => false
  end.

Definition in_bucket (b : bucket) (i : obj) : bool := has_type (tag b) i.

(** Each of the six lists is the full list filtered by its tag: same items,
    same order, same multiplicity. *)
Definition consistent (s : state) : Prop :=
  forall b, bucket_items b s = filter (in_bucket b) (learningItems s).

(** The six lists partition the typed part of the full list. *)
Definition partition (s : state) : Prop :=
  (forall i b, In i (learningItems s) -> item_type i = VStr (tag b) ->
               In i (bucket_items b s)) /\
  (forall i b, In i (bucket_items b s) ->
               In i (learningItems s) /\ item_type i = VStr (tag b)).

(** Every item of [l] with identifier [id] falls in the bucket (or in none)
    that the tag [ty] selects. *)
Definition agrees (id ty : value) (l : list obj) : bool :=
  forallb (fun i => implb (strict_eq (item_id i) id)
                          (same_bucket (bucket_of (item_type i))
                                       (bucket_of ty))) l.

(** The notification carries, for the identifier it names, a type tag that
    selects the bucket of the items stored under that identifier. *)
Definition type_stable (s : state) (n : notification) : bool :=
  match n with
  | INSERT _ _ => true
  | UPDATE _ new => agrees (item_id new) (item_type new) (learningItems s)
  | DELETE old => agrees (item_id old) (item_type old) (learningItems s)
  end.

Fixpoint type_stable_run (s : state) (ns : list notification) : bool :=
  match ns with
  | [] => true
  | n :: ns' => type_stable s n && type_stable_run (apply s n) ns'
  end.

(** No item of [l] has identifier [id]. *)
Definition absent (id : value) (l : list obj) : Prop :=
  forall y, In y l -> item_id y <> id.

(** [x] is in [l], and is the only item of [l] with its identifier. *)
Definition once (x : obj) (l : list obj) : Prop :=
  exists l1 l2, l = l1 ++ x :: l2 /\
                absent (item_id x) l1 /\ absent (item_id x) l2.

Definition unrecognized (ty : value) : Prop :=
  forall b, ty <> VStr (tag b).

End ItemsSpec.

(** ** Sample rows and payloads *)

Module Samples.

Import Items.

Definition at_time (t : string) : clock_reads :=
  {| created_now := t; updated_now := t |}.

Definition row (id ty : string) : obj :=
  [("id", VStr id); ("paper_id", VStr "P1"); ("type", VStr ty);
   ("data", VObj [("title", VStr "A title"); ("content", VStr "Some text")]);
   ("created_at", VStr "2025-01-01T00:00:00.000Z");
   ("updated_at", VStr "2025-01-01T00:00:00.000Z")].

Definition row_with_content (id ty content : string) : obj :=
  [("id", VStr id); ("paper_id", VStr "P1"); ("type", VStr ty);
   ("data", VObj [("title", VStr "A title"); ("content", VStr content)]);
   ("created_at", VStr "2025-01-01T00:00:00.000Z");
   ("updated_at", VStr "2025-02-02T00:00:00.000Z")].

(** A payload without timestamps. *)
Definition bare_row (id ty : string) : obj :=
  [("id", VStr id); ("type", VStr ty)].

(** The state after the initial load of the paper of the scenario: a quiz
    [i1] and a video [i2]. *)
Definition loaded : state :=
  onFetched (fun _ => at_time "T0") (Some [row "i1" "quiz"; row "i2" "video"])
            initial.

Definition paperA : obj :=
  [("id", VStr "A"); ("title", VStr "Paper A");
   ("pdf_url", VStr "https://files.example/a.pdf");
   ("source_type", VStr "pdf"); ("status", VStr "completed")].

Definition paperB : obj :=
  [("id", VStr "B"); ("title", VStr "Paper B");
   ("pdf_url", VStr "https://files.example/b.pdf");
   ("source_type", VStr "pdf"); ("status", VStr "processing")].

(** A paper with no stored URL and no recognized source. *)
Definition paperB_without_url : obj :=
  [("id", VStr "B"); ("title", VStr "Paper B");
   ("pdf_url", VNull); ("source_type", VStr "upload");
   ("status", VStr "processing")].

Definition updateB : obj :=
  [("id", VStr "B"); ("title", VStr "Paper B, processed");
   ("pdf_url", VStr "https://files.example/b-v2.pdf");
   ("source_type", VStr "pdf"); ("status", VStr "completed")].

Definition arxivPaper : obj :=
  [("id", VStr "P1"); ("pdf_url", VNull);
   ("source_type", VStr "arxiv"); ("arxiv_id", VStr "1234")].

Definition uploadedPaper : obj :=
  [("id", VStr "P2"); ("pdf_url", VNull); ("source_type", VStr "pdf");
   ("source_url", VStr "https://files.example/upload.pdf")].

End Samples.

(** ** Sample video items and steps *)

Module MoreSamples.

(** The item of the scenario of section 8: [metadata.video] holds one video
    object. *)
Definition item_i9 : obj :=
  [("id", VStr "i9"); ("type", VStr "video");
   ("metadata", VObj [("video", VObj [("video_id", VStr "abc")])])].

(** An item whose only video payload is an array under [data.videos]. *)
Definition item_data_videos : obj :=
  [("id", VStr "i7"); ("type", VStr "video");
   ("data", VObj [("videos", VArr [VObj [("video_id", VStr "abc")]])]);
   ("metadata", VObj [])].

(** An item whose only video payload is a single object under
    [data.videos]. *)
Definition item_data_videos_single : obj :=
  [("id", VStr "i8"); ("type", VStr "video");
   ("data", VObj [("videos", VObj [("video_id", VStr "abc")])]);
   ("metadata", VObj [])].

(** A step as the paper page builds it: a component element without a
    [title] prop and without children. *)
Definition stepOf (name : string) : Journey.node :=
  Journey.Element (Journey.Component name) "" Journey.Empty.

Definition Summary := stepOf "SummaryStep".
Definition Concepts := stepOf "KeyConceptsStep".
Definition Results := stepOf "ResultsStep".
Definition Video := stepOf "VideoExplanationStep".
Definition Quiz := stepOf "QuizStep".

End MoreSamples.

(** ** The reading steps, kind by kind *)

Module JourneySpec.

Import Journey.

(** The record that one round of the first loop adds, if it adds one. *)
Definition entry (step : node) (index : nat) : option readingStep :=
  match classify step with
  | Ok (stepType, order) =>
      if is_reading_type stepType
      then Some {| rs_step := step; rs_index := index;
                   rs_type := stepType; rs_order := order |}
      else None
  | Throw _ => None
  end.

Fixpoint entries (index : nat) (steps : list node) : list readingStep :=
  match steps with
  | [] => []
  | step :: rest =>
      match entry step index with
      | Some e => e :: entries (S index) rest
      | None => entries (S index) rest
      end
  end.

Definition of_order (k : nat) (l : list readingStep) : list readingStep :=
  filter (fun e => Nat.eqb (rs_order e) k) l.

End JourneySpec.

(** ** The precedence of the document URL, as specified *)

Module PaperSpec.

(** Section 4.1 of the specification: the explicit stored URL, then the URL
    derived from a recognized external source identifier, then null. *)
Definition spec_resolvePdfUrl (data : obj) : value :=
  if truthy (lookup "pdf_url" data) then lookup "pdf_url" data
  else if strict_eq (lookup "source_type" data) (VStr "arxiv")
          && truthy (lookup "arxiv_id" data)
  then VStr ("https://arxiv.org/pdf/" ++ to_string (lookup "arxiv_id" data))
  else VNull.

End PaperSpec.

(** ** More of [VideoExplanationStep]: completion flags and navigation *)

Module VideoPlayer.

(** [ids.includes(x)] *)
Definition includes (ids : list value) (x : value) : bool :=
  existsb (fun y => strict_eq y x) ids.

(** [allVideos[i]] *)
Definition at_index (allVideos : list obj) (i : Z) : value :=
  if (i <? 0)%Z then VUndefined
  else match nth_error allVideos (Z.to_nat i) with
       | Some video => VObj video
       | None => VUndefined
       end.

(** The effect that recomputes [currentVideoCompleted]. *)
Definition completionEffect (allVideos : list obj) (currentVideoIndex : Z)
    (completedItemIds : list value) (currentVideoCompleted : bool) : bool :=
  let len := Z.of_nat (List.length allVideos) in
  if (len >? 0)%Z && (currentVideoIndex >=? 0)%Z
     && (currentVideoIndex <? len)%Z
  then includes completedItemIds
                (get_opt (at_index allVideos currentVideoIndex) "itemId")
  else currentVideoCompleted.

(** [goToNextVideo] and [goToPrevVideo]: the test reads the
    [currentVideoIndex] of the render that created the callback, the
    functional updater changes the latest state [prevIndex].  The two differ
    when the callback is stale, as the one [handleComplete] calls after its
    [await]. *)
Definition goToNextVideo (allVideos : list obj) (currentVideoIndex : Z)
    (prevIndex : Z) : Z :=
  if (currentVideoIndex <? Z.of_nat (List.length allVideos) - 1)%Z
  then (prevIndex + 1)%Z else prevIndex.

Definition goToPrevVideo (currentVideoIndex : Z) (prevIndex : Z) : Z :=
  if (currentVideoIndex >? 0)%Z
  then (prevIndex - 1)%Z else prevIndex.

(** [allVideos.every(video => completedItemIds.includes(video.itemId))] *)
Definition allVideosCompleted (allVideos : list obj)
    (completedItemIds : list value) : bool :=
  forallb (fun video => includes completedItemIds (lookup "itemId" video))
          allVideos.

(** The descriptors that one item contributes when its payload is an
    array. *)
Definition descriptors_of (videoItem : obj) : list obj :=
  match Videos.locate videoItem with
  | Ok (VArr l) => map (Videos.descriptor videoItem) l
  | _ => []
  end.

Definition well_shaped (videoItem : obj) : bool :=
  match Videos.locate videoItem with
  | Ok (VArr _) => true
  | _ => false
  end.

End VideoPlayer.

(** ** More of [LearningJourney]: the navigation callbacks *)

Module JourneyNav.

Import Journey.

Definition goToNextStep (filteredSteps : list node) (currentStep : nat) : nat :=
  if (Z.of_nat currentStep <? Z.of_nat (List.length filteredSteps) - 1)%Z
  then currentStep + 1 else currentStep.

Definition goToPrevStep (currentStep : nat) : nat :=
  if Nat.ltb 0 currentStep then currentStep - 1 else currentStep.

(** The index lists behind [filteredSteps] and [stepMap]: [indices] are the
    original positions of the filtered steps, in filtered order. *)
Definition maps_back (steps : list node) (indices : list nat)
    (acc : list node * list (nat * nat)) : Prop :=
  map Some (fst acc) = map (nth_error steps) indices /\
  snd acc = combine (seq 0 (List.length indices)) indices.

Definition throwing_filter (f : ContentType) : bool :=
  match f with
  | video | quiz | flashcard | consulting => true
  | _ => false
  end.

End JourneyNav.

(** ** The document source of the paper page: [PaperDetails] *)

Module PaperDetails.

(** [localStorage] *)
Definition storage := list (string * string).

Fixpoint getItem (k : string) (st : storage) : option string :=
  match st with
  | [] => None
  | (k', v) :: st' => if String.eqb k k' then Some v else getItem k st'
  end.

Definition removeItem (k : string) (st : storage) : storage :=
  filter (fun e => negb (String.eqb k (fst e))) st.

Definition contentKey (id : value) : string :=
  ("paper_" ++ to_string id ++ "_content")%string.

Definition typeKey (id : value) : string :=
  ("paper_" ++ to_string id ++ "_content_type")%string.

(** [cachedContent]: [null], a string, or a [File] (by its handle). *)
Inductive cached : Type :=
| NoContent
| Str (s : string)
| FileObj (handle : string).

Definition cached_truthy (c : cached) : bool :=
  match c with
  | NoContent => false
  | Str s => negb (String.eqb s "")
  | FileObj _ => true
  end.

Inductive kind : Type := KUrl | KFile.

(** What the viewer receives. *)
Inductive source : Type :=
| FromPaper (url : value)
| FromCache (c : cached)
| Blob (url : string)
| NoSource.

(** The [useMemo] of [pdfSource], with the [localStorage] it leaves;
    [createObjectURL] is the browser's, which rejects what is not a blob. *)
Definition pdfSource (createObjectURL : string -> string)
    (paper : option obj) (cachedContent : cached) (contentType : option kind)
    (id : value) (st : storage) : result (source * storage) :=
  let pdf_url := match paper with Some p => lookup "pdf_url" p | None => VUndefined end in
  let source_url := match paper with Some p => lookup "source_url" p | None => VUndefined end in
  if truthy (or_else pdf_url source_url) then
    Ok (FromPaper (or_else pdf_url source_url),
        if truthy id
        then removeItem (typeKey id) (removeItem (contentKey id) st)
        else st)
  else if cached_truthy cachedContent then
    match contentType with
    | Some KUrl => Ok (FromCache cachedContent, st)
    | Some KFile =>
        match cachedContent with
        | FileObj handle => Ok (Blob (createObjectURL handle), st)
        | _ => Throw "TypeError: createObjectURL"
        end
    | None => Ok (NoSource, st)
    end
  else Ok (NoSource, st).

(** The effect that restores the cached content: [navState] is
    [location.state] reduced to its two fields. *)
Definition restoreEffect (navState : option (cached * option kind))
    (id : value) (st : storage) (cur : cached * option kind)
    : cached * option kind :=
  match navState with
  | Some (c, k) =>
      if cached_truthy c then (c, k) else
      match getItem (typeKey id) st with
      | Some "url"%string =>
          match getItem (contentKey id) st with
          | Some storedUrl =>
              if negb (String.eqb storedUrl "") then (Str storedUrl, Some KUrl)
              else cur
          | None => cur
          end
      | _ => cur
      end
  | None =>
      match getItem (typeKey id) st with
      | Some "url"%string =>
          match getItem (contentKey id) st with
          | Some storedUrl =>
              if negb (String.eqb storedUrl "") then (Str storedUrl, Some KUrl)
              else cur
          | None => cur
          end
      | _ => cur
      end
  end.

End PaperDetails.

(** ** More on the item lists *)

Module ExtraSpec.

Import Items ItemsSpec.

Definition inserts (l : list (clock_reads * obj)) : list notification :=
  map (fun p => INSERT (fst p) (snd p)) l.

Definition inserted (l : list (clock_reads * obj)) : list obj :=
  map (fun p => transformPayload (fst p) (snd p)) l.

Definition no_bucket (i : obj) : bool :=
  match bucket_of (item_type i) with
  | None => true
  | Some _ => false
  end.

Fixpoint has_key (k : string) (o : obj) : bool :=
  match o with
  | [] => false
  | (k', _) :: o' => String.eqb k k' || has_key k o'
  end.

Definition normalized_keys : list string :=
  ["title"; "content"; "metadata"; "created_at"; "updated_at"; "videos"].

(** The five normalized fields are present and hold the values that the
    normalization computes from the item itself. *)
Definition normal (clk : clock_reads) (t : obj) : Prop :=
  (has_key "title" t = true /\ has_key "content" t = true /\
   has_key "metadata" t = true /\ has_key "created_at" t = true /\
   has_key "updated_at" t = true) /\
  lookup "title" t = or_else (get_opt (lookup "data" t) "title") (VStr "") /\
  lookup "content" t =
    or_else (get_opt (lookup "data" t) "content") (VStr "") /\
  lookup "metadata" t =
    or_else (get_opt (lookup "data" t) "metadata") (VObj []) /\
  lookup "created_at" t =
    or_else (lookup "created_at" t) (VStr (created_now clk)) /\
  lookup "updated_at" t =
    or_else (lookup "updated_at" t) (VStr (updated_now clk)).

Definition is_answer (e : Paper.event) : bool :=
  match e with
  | Paper.FetchOk _ _ => true
  | _ => false
  end.

Definition updates (l : list (string * obj)) : list Paper.event :=
  map (fun p => Paper.Update (fst p) (snd p)) l.

End ExtraSpec.

(** ** The handlers on raw payloads *)

Module ItemsPayload.

Import Items.

(** A record as the transformation reads it: reading a property of [null]
    or [undefined] throws; of any other value, the object literal copies the
    own enumerable properties and every other property read is
    [undefined]. *)
Definition as_row (v : value) : result obj :=
  match v with
  | VUndefined | VNull => Throw "TypeError: cannot read properties"
  | _ => Ok (spread v)
  end.

Fixpoint rows_of (data : list value) : result (list obj) :=
  match data with
  | [] => Ok []
  | v :: rest => r <- as_row v ;; rs <- rows_of rest ;; Ok (r :: rs)
  end.

(** [fetchInitialData] on the answered [data]: what [data.map] throws is
    caught and recorded in [error]. *)
Definition handleFetched (clk : nat -> clock_reads)
    (data : option (list value)) (s : state) : state :=
  match data with
  | None => onFetched clk None s
  | Some vs =>
      match rows_of vs with
      | Ok rows => onFetched clk (Some rows) s
      | Throw msg => onFetchFailed msg s
      end
  end.

(** The INSERT callback on [payload.new]; nothing catches what it throws. *)
Definition handleInsert (clk : clock_reads) (new : value) (s : state)
    : result state :=
  newItemRaw <- as_row new ;; Ok (onInsert clk newItemRaw s).

End ItemsPayload.

(** ** The kinds of reading steps, read off titles and component names *)

Module ReadingKinds.

Import Journey.

(** The test [stepTitle.includes(t) || name_is n] on a step where it does
    not throw. *)
Definition shows (step : node) (t n : string) : bool :=
  match title_or_name step t n with
  | Ok b => b
  | Throw _ => false
  end.

Definition is_summary (step : node) : bool :=
  shows step "Paper Summary" "SummaryStep".

Definition is_concepts (step : node) : bool :=
  negb (is_summary step) && shows step "Key Concepts" "KeyConceptsStep".

Definition is_methodology (step : node) : bool :=
  negb (is_summary step) && negb (is_concepts step)
  && shows step "Methodology" "MethodologyStep".

Definition is_results (step : node) : bool :=
  negb (is_summary step) && negb (is_concepts step)
  && negb (is_methodology step) && shows step "Results" "ResultsStep".

(** The steps that a filter other than "reading" displays. *)
Definition shown (f : ContentType) (step : node) : bool :=
  match f with
  | all => true
  | _ => keeps f step
  end.

Definition Methodology : node :=
  Element (Component "MethodologyStep") "" Empty.

End ReadingKinds.

(** ** Properties of the JavaScript helpers *)

Module JSFacts.

Lemma strict_eq_true (a b : value) : strict_eq a b = true -> a = b.
Proof.
  destruct a, b; simpl; try discriminate; intros H; try reflexivity.
  - apply Bool.eqb_prop in H. now subst.
  - apply Z.eqb_eq in H. now subst.
  - apply String.eqb_eq in H. now subst.
Qed.

Lemma strict_eq_sym (a b : value) : strict_eq a b = strict_eq b a.
Proof.
  destruct a, b; simpl; try reflexivity.
  - now destruct b, b0.
  - apply Z.eqb_sym.
  - apply String.eqb_sym.
Qed.

(** A value that is strictly equal to something is strictly equal to
    itself: it is a primitive. *)
Lemma strict_eq_refl_of (a b : value) :
  strict_eq a b = true -> strict_eq b b = true.
Proof.
  intros H. pose proof (strict_eq_true _ _ H) as ->. exact H.
Qed.

Lemma strict_eq_str (t : string) : strict_eq (VStr t) (VStr t) = true.
Proof. simpl. apply String.eqb_refl. Qed.

Lemma lookup_set_same (k : string) (v : value) (o : obj) :
  lookup k (set k v o) = v.
Proof.
  induction o as [|[k' v'] o IH]; simpl.
  - now rewrite String.eqb_refl.
  - destruct (String.eqb k k') eqn:E; simpl.
    + now rewrite String.eqb_refl.
    + now rewrite E.
Qed.

Lemma lookup_set_other (k k' : string) (v : value) (o : obj) :
  k <> k' -> lookup k (set k' v o) = lookup k o.
Proof.
  intros Hk. apply String.eqb_neq in Hk.
  induction o as [|[k0 v0] o IH]; simpl.
  - now rewrite Hk.
  - destruct (String.eqb k' k0) eqn:E; simpl.
    + apply String.eqb_eq in E. subst k0. now rewrite Hk.
    + now rewrite IH.
Qed.

Lemma or_else_truthy (a b : value) : truthy a = true -> or_else a b = a.
Proof. unfold or_else. now intros ->. Qed.

End JSFacts.

Import JSFacts.

(** ** Properties of the item handlers *)

Module ItemsFacts.

Import Items ItemsSpec.

Lemma bucket_of_tag (b : bucket) : bucket_of (VStr (tag b)) = Some b.
Proof. now destruct b. Qed.

Lemma bucket_of_Some (ty : value) (b : bucket) :
  bucket_of ty = Some b -> ty = VStr (tag b).
Proof.
  unfold bucket_of.
  repeat match goal with
         | |- context [strict_eq ty ?t] =>
             let E := fresh "E" in
             destruct (strict_eq ty t) eqn:E;
             [ apply strict_eq_true in E; intros [= <-]; exact E | ]
         end.
  discriminate.
Qed.

Lemma bucket_of_None (ty : value) : bucket_of ty = None <-> unrecognized ty.
Proof.
  split.
  - intros H b ->. rewrite bucket_of_tag in H. discriminate.
  - intros H. destruct (bucket_of ty) as [b|] eqn:E; [|reflexivity].
    apply bucket_of_Some in E. now apply H in E.
Qed.

Lemma bucket_eqb_eq (a b : bucket) : bucket_eqb a b = true <-> a = b.
Proof. destruct a, b; simpl; split; intros H; try reflexivity; discriminate. Qed.

Lemma same_bucket_eq (a b : option bucket) : same_bucket a b = true <-> a = b.
Proof.
  destruct a as [x|], b as [y|]; simpl; try (split; intros; discriminate).
  - rewrite bucket_eqb_eq. split; [now intros -> | now intros [= ->]].
  - split; reflexivity.
Qed.

Lemma in_bucket_iff (b : bucket) (i : obj) :
  in_bucket b i = true <-> bucket_of (item_type i) = Some b.
Proof.
  unfold in_bucket, has_type. split; intros H.
  - apply strict_eq_true in H. rewrite H. apply bucket_of_tag.
  - apply bucket_of_Some in H. rewrite H. apply strict_eq_str.
Qed.

Lemma in_bucket_same (b : bucket) (i : obj) :
  in_bucket b i = same_bucket (bucket_of (item_type i)) (Some b).
Proof.
  destruct (in_bucket b i) eqn:E.
  - apply in_bucket_iff in E. symmetry. now apply same_bucket_eq.
  - destruct (same_bucket _ _) eqn:F; [|reflexivity].
    apply same_bucket_eq, in_bucket_iff in F. congruence.
Qed.

(** The transformations leave [id] and [type] as the row has them. *)
Lemma baseItem_id clk r : item_id (baseItem clk r) = item_id r.
Proof.
  unfold item_id, baseItem. now rewrite !lookup_set_other by discriminate.
Qed.

Lemma baseItem_type clk r : item_type (baseItem clk r) = item_type r.
Proof.
  unfold item_type, baseItem. now rewrite !lookup_set_other by discriminate.
Qed.

Lemma with_videos_id raw base : item_id (with_videos raw base) = item_id base.
Proof. unfold item_id, with_videos. now rewrite lookup_set_other by discriminate. Qed.

Lemma with_videos_type raw base :
  item_type (with_videos raw base) = item_type base.
Proof. unfold item_type, with_videos. now rewrite lookup_set_other by discriminate. Qed.

Lemma transformFetched_payload clk r :
  transformFetched clk r = transformPayload clk r.
Proof.
  unfold transformFetched, transformPayload.
  destruct (strict_eq (item_type r) (VStr "video")); [reflexivity|].
  now destruct (strict_eq (item_type r) (VStr "quiz")),
               (strict_eq (item_type r) (VStr "flashcard")).
Qed.

Lemma transformPayload_id clk r : item_id (transformPayload clk r) = item_id r.
Proof.
  unfold transformPayload. destruct (strict_eq _ _).
  - now rewrite with_videos_id, baseItem_id.
  - apply baseItem_id.
Qed.

Lemma transformPayload_type clk r :
  item_type (transformPayload clk r) = item_type r.
Proof.
  unfold transformPayload. destruct (strict_eq _ _).
  - now rewrite with_videos_type, baseItem_type.
  - apply baseItem_type.
Qed.

Lemma transformFetched_id clk r : item_id (transformFetched clk r) = item_id r.
Proof. rewrite transformFetched_payload. apply transformPayload_id. Qed.

Lemma transformFetched_type clk r :
  item_type (transformFetched clk r) = item_type r.
Proof. rewrite transformFetched_payload. apply transformPayload_type. Qed.

(** A row with both timestamps is transformed without reading the clock. *)
Lemma transformPayload_clock clk1 clk2 r :
  truthy (lookup "created_at" r) = true ->
  truthy (lookup "updated_at" r) = true ->
  transformPayload clk1 r = transformPayload clk2 r.
Proof.
  intros Hc Hu. unfold transformPayload, baseItem.
  now rewrite !(or_else_truthy _ _ Hc), !(or_else_truthy _ _ Hu).
Qed.

(** The fields of the state after a setter. *)
Lemma learningItems_switch ty f s :
  learningItems (switch_bucket ty f s) = learningItems s.
Proof. unfold switch_bucket. now destruct (bucket_of ty) as [[]|]. Qed.

Lemma bucket_items_switch ty f s b :
  bucket_items b (switch_bucket ty f s) =
  if same_bucket (bucket_of ty) (Some b)
  then f (bucket_items b s) else bucket_items b s.
Proof. unfold switch_bucket. now destruct (bucket_of ty) as [[]|], b. Qed.

Lemma bucket_items_setLearningItems f s b :
  bucket_items b (setLearningItems f s) = bucket_items b s.
Proof. now destruct b. Qed.

Lemma transformAll_app clk n l1 l2 :
  transformAll clk n (l1 ++ l2) =
  transformAll clk n l1 ++ transformAll clk (n + List.length l1) l2.
Proof.
  revert n. induction l1 as [|a l1 IH]; intros n; simpl.
  - now rewrite Nat.add_0_r.
  - rewrite IH. now rewrite Nat.add_succ_comm.
Qed.

Lemma transformAll_In clk n l x :
  In x (transformAll clk n l) ->
  exists r c, In r l /\ x = transformFetched c r.
Proof.
  revert n. induction l as [|a l IH]; intros n; simpl; [easy|].
  intros [<-|H].
  - exists a, (clk n). auto.
  - destruct (IH _ H) as (r & c & Hr & ->). exists r, c. auto.
Qed.

(** *** The state after the initial load *)

Lemma onFetched_consistent clk rows s :
  consistent (onFetched clk (Some rows) s).
Proof. intros []; reflexivity. Qed.

(** *** Each handler keeps the lists consistent *)

Lemma onInsert_consistent clk raw s :
  consistent s -> consistent (onInsert clk raw s).
Proof.
  intros H b. unfold onInsert.
  rewrite bucket_items_switch, learningItems_switch,
    bucket_items_setLearningItems.
  cbn [learningItems setLearningItems]. rewrite filter_app, (H b). simpl.
  rewrite in_bucket_same, transformPayload_type.
  destruct (same_bucket _ _); [reflexivity | now rewrite app_nil_r].
Qed.

Lemma agrees_spec id ty l :
  agrees id ty l = true ->
  forall i, In i l -> strict_eq (item_id i) id = true ->
            bucket_of (item_type i) = bucket_of ty.
Proof.
  unfold agrees. rewrite forallb_forall. intros H i Hi E.
  specialize (H i Hi). rewrite E in H. now apply same_bucket_eq.
Qed.

Lemma filter_replace b u l :
  (forall i, In i l -> strict_eq (item_id i) (item_id u) = true ->
             bucket_of (item_type i) = bucket_of (item_type u)) ->
  filter (in_bucket b) (replace_by_id u l) =
  if same_bucket (bucket_of (item_type u)) (Some b)
  then replace_by_id u (filter (in_bucket b) l)
  else filter (in_bucket b) l.
Proof.
  induction l as [|a l IH]; intros H; simpl.
  - now destruct (same_bucket _ _).
  - rewrite IH by (intros i Hi; apply H; now right).
    destruct (strict_eq (item_id a) (item_id u)) eqn:E.
    + specialize (H a (or_introl eq_refl) E).
      rewrite !in_bucket_same, H.
      destruct (same_bucket _ _); simpl; [now rewrite E | reflexivity].
    + destruct (in_bucket b a), (same_bucket _ _); simpl;
        now rewrite ?E.
Qed.

Lemma onUpdate_consistent clk raw s :
  agrees (item_id raw) (item_type raw) (learningItems s) = true ->
  consistent s -> consistent (onUpdate clk raw s).
Proof.
  intros Ha H b. unfold onUpdate.
  rewrite bucket_items_switch, learningItems_switch,
    bucket_items_setLearningItems.
  cbn [learningItems setLearningItems]. rewrite (H b).
  rewrite filter_replace; [reflexivity|].
  rewrite transformPayload_id, transformPayload_type.
  now apply agrees_spec.
Qed.

Lemma filter_remove b d l :
  (forall i, In i l -> strict_eq (item_id i) (item_id d) = true ->
             bucket_of (item_type i) = bucket_of (item_type d)) ->
  filter (in_bucket b) (remove_by_id d l) =
  if same_bucket (bucket_of (item_type d)) (Some b)
  then remove_by_id d (filter (in_bucket b) l)
  else filter (in_bucket b) l.
Proof.
  induction l as [|a l IH]; intros H; simpl.
  - now destruct (same_bucket _ _).
  - assert (IH' := IH (fun i Hi => H i (or_intror Hi))). clear IH.
    destruct (strict_eq (item_id a) (item_id d)) eqn:E; simpl.
    + specialize (H a (or_introl eq_refl) E).
      rewrite IH', in_bucket_same, H.
      destruct (same_bucket _ _); simpl; [now rewrite E | reflexivity].
    + rewrite IH'.
      destruct (in_bucket b a), (same_bucket _ _); simpl;
        now rewrite ?E.
Qed.

Lemma onDelete_consistent old s :
  agrees (item_id old) (item_type old) (learningItems s) = true ->
  consistent s -> consistent (onDelete old s).
Proof.
  intros Ha H b. unfold onDelete.
  rewrite bucket_items_switch, learningItems_switch,
    bucket_items_setLearningItems.
  cbn [learningItems setLearningItems]. rewrite (H b).
  symmetry. apply filter_remove. now apply agrees_spec.
Qed.

Lemma apply_consistent s n :
  type_stable s n = true -> consistent s -> consistent (apply s n).
Proof.
  destruct n as [clk new|clk new|old]; simpl; intros Hn H.
  - now apply onInsert_consistent.
  - now apply onUpdate_consistent.
  - now apply onDelete_consistent.
Qed.

Lemma run_consistent ns : forall s,
  type_stable_run s ns = true -> consistent s -> consistent (run s ns).
Proof.
  induction ns as [|n ns IH]; intros s Hr H; simpl; [exact H|].
  simpl in Hr. apply andb_true_iff in Hr as [Hn Hr].
  apply IH; [exact Hr|]. now apply apply_consistent.
Qed.

Lemma consistent_partition s : consistent s -> partition s.
Proof.
  intros H. split.
  - intros i b Hi Ht. rewrite (H b). apply filter_In. split; [exact Hi|].
    apply in_bucket_iff. rewrite Ht. apply bucket_of_tag.
  - intros i b Hi. rewrite (H b) in Hi. apply filter_In in Hi as [Hi Hb].
    split; [exact Hi|]. now apply bucket_of_Some, in_bucket_iff.
Qed.

(** *** Replacing twice *)

Lemma replace_absorb u1 u2 l :
  item_id u1 = item_id u2 ->
  replace_by_id u2 (replace_by_id u1 l) = replace_by_id u2 l.
Proof.
  intros Hid. induction l as [|a l IH]; simpl; [reflexivity|].
  rewrite IH. f_equal.
  destruct (strict_eq (item_id a) (item_id u1)) eqn:E.
  - rewrite Hid in E |- *. now rewrite E, (strict_eq_refl_of _ _ E).
  - reflexivity.
Qed.

Lemma onUpdate_absorbs s clk1 clk2 p :
  onUpdate clk2 p (onUpdate clk1 p s) = onUpdate clk2 p s.
Proof.
  assert (Hid : item_id (transformPayload clk1 p) =
                item_id (transformPayload clk2 p))
    by now rewrite !transformPayload_id.
  unfold onUpdate, switch_bucket. rewrite !transformPayload_type.
  destruct s. destruct (bucket_of (item_type p)) as [[]|];
    unfold setLearningItems, setVideoItems, setQuizItems, setFlashcardItems,
      setKeyConceptsItems, setMethodologyItems, setResultsItems; simpl;
    now rewrite !(replace_absorb _ _ _ Hid).
Qed.

End ItemsFacts.

(** ** The item lists: claims *)

Module ItemsClaims.

Import Items ItemsSpec ItemsFacts Samples.

(** C1, as stated, fails: after the initial load of one quiz item, an UPDATE
    notification that carries the same identifier with the type tag "video"
    leaves the old record in [quizItems] and nothing in [videoItems], while
    the full list holds the new, video-typed record. *)
Lemma retyping_update_breaks_partition :
  ~ partition
      (run (onFetched (fun _ => at_time "T0") (Some [row "i1" "quiz"]) initial)
           [UPDATE (at_time "T1") (row "i1" "video")]).
Proof.
  intros [Hin _].
  specialize (Hin (transformPayload (at_time "T1") (row "i1" "video")) Video).
  simpl in Hin. apply Hin; [left|]; reflexivity.
Qed.

(** C1, amended: after the initial load, along every sequence of INSERT,
    UPDATE and DELETE notifications in which each UPDATE and each DELETE
    carries a type tag that selects the same bucket as the items stored under
    its identifier, each of the six lists is the full list filtered by its
    tag; hence the six lists partition the typed part of the full list. *)
Theorem partition_kept_by_type_stable_runs
    (clk : nat -> clock_reads) (rows : list obj) (s0 : state)
    (ns : list notification) :
  type_stable_run (onFetched clk (Some rows) s0) ns = true ->
  consistent (run (onFetched clk (Some rows) s0) ns) /\
  partition (run (onFetched clk (Some rows) s0) ns).
Proof.
  intros H.
  assert (C : consistent (run (onFetched clk (Some rows) s0) ns))
    by (apply run_consistent; [exact H | apply onFetched_consistent]).
  split; [exact C | now apply consistent_partition].
Qed.

Lemma partition_kept_by_type_stable_runs_witness :
  let ns := [INSERT (at_time "T1") (row "i3" "concepts");
             INSERT (at_time "T2") (row "i4" "slides");
             UPDATE (at_time "T3") (row_with_content "i1" "quiz" "new");
             DELETE (bare_row "i2" "video")] in
  type_stable_run loaded ns = true /\
  consistent (run loaded ns) /\ partition (run loaded ns).
Proof.
  split; [reflexivity|].
  apply (partition_kept_by_type_stable_runs
           (fun _ => at_time "T0") [row "i1" "quiz"; row "i2" "video"] initial).
  reflexivity.
Defined.

(** A DELETE notification whose [old] record carries the identifier alone
    removes the item from the full list and from no bucket. *)
Lemma delete_without_type_leaves_bucket :
  let s := onDelete [("id", VStr "i2")] loaded in
  learningItems s = [transformFetched (at_time "T0") (row "i1" "quiz")] /\
  videoItems s = [transformFetched (at_time "T0") (row "i2" "video")].
Proof. split; reflexivity. Qed.

(** The lists around a fresh item of unrecognized type: an item whose type
    tag is none of the six recognized tags is kept in the full list and in
    none of the six lists.  After the initial load of
    rows among which it is the only one with its identifier, its
    transformation is in the full list, once, and no list holds an item
    with its identifier.  After an INSERT notification for it, in a state
    that holds no item with its identifier, the same is true.  The handlers
    are total functions: they contain no operation that throws. *)
Theorem unrecognized_type_kept_outside_buckets :
  (forall clk before r after s,
      unrecognized (item_type r) ->
      absent (item_id r) before -> absent (item_id r) after ->
      let s' := onFetched clk (Some (before ++ r :: after)) s in
      once (transformFetched (clk (List.length before)) r) (learningItems s') /\
      forall b, absent (item_id r) (bucket_items b s')) /\
  (forall clk raw s,
      unrecognized (item_type raw) ->
      absent (item_id raw) (learningItems s) ->
      (forall b, absent (item_id raw) (bucket_items b s)) ->
      let s' := onInsert clk raw s in
      once (transformPayload clk raw) (learningItems s') /\
      forall b, absent (item_id raw) (bucket_items b s')).
Proof.
  split.
  - intros clk before r after s Hu Hb Ha s'.
    assert (Habs : forall n l, absent (item_id r) l ->
                               absent (item_id r) (transformAll clk n l)).
    { intros n l Hl y Hy. apply transformAll_In in Hy as (r' & c & Hr' & ->).
      rewrite transformFetched_id. now apply Hl. }
    assert (HL : learningItems s' =
                 transformAll clk 0 before ++
                 transformFetched (clk (List.length before)) r ::
                 transformAll clk (S (List.length before)) after).
    { subst s'. cbn [onFetched learningItems]. now rewrite transformAll_app. }
    split.
    + exists (transformAll clk 0 before),
             (transformAll clk (S (List.length before)) after).
      rewrite transformFetched_id. auto.
    + intros b y Hy. unfold s' in Hy.
      rewrite (onFetched_consistent clk _ s b) in Hy.
      apply filter_In in Hy as [Hy Hin]. fold s' in Hy. rewrite HL in Hy.
      apply in_app_or in Hy as [Hy|[<-|Hy]].
      * now apply (Habs 0 before).
      * apply in_bucket_iff in Hin. rewrite transformFetched_type in Hin.
        apply bucket_of_None in Hu. congruence.
      * now apply (Habs (S (List.length before)) after).
  - intros clk raw s Hu HL Hb s'. apply bucket_of_None in Hu.
    split.
    + exists (learningItems s), []. subst s'. unfold onInsert.
      rewrite learningItems_switch, transformPayload_id.
      split; [reflexivity|]. split; [exact HL | intros y []].
    + intros b. subst s'. unfold onInsert.
      rewrite bucket_items_switch, Hu, bucket_items_setLearningItems.
      apply Hb.
Qed.

Lemma unrecognized_type_kept_outside_buckets_witness :
  (once (transformFetched (at_time "T0") (row "i5" "slides"))
        (learningItems
           (onFetched (fun _ => at_time "T0")
                      (Some ([row "i1" "quiz"] ++ row "i5" "slides" ::
                             [row "i2" "video"])) initial)) /\
   forall b, absent (VStr "i5")
               (bucket_items b
                  (onFetched (fun _ => at_time "T0")
                             (Some ([row "i1" "quiz"] ++ row "i5" "slides" ::
                                    [row "i2" "video"])) initial))) /\
  (once (transformPayload (at_time "T1") (row "i5" "slides"))
        (learningItems (onInsert (at_time "T1") (row "i5" "slides") loaded)) /\
   forall b, absent (VStr "i5")
               (bucket_items b
                  (onInsert (at_time "T1") (row "i5" "slides") loaded))).
Proof.
  split.
  - apply (proj1 unrecognized_type_kept_outside_buckets
             (fun _ => at_time "T0") [row "i1" "quiz"] (row "i5" "slides")
             [row "i2" "video"] initial).
    + intros []; discriminate.
    + intros y [<-|[]]; discriminate.
    + intros y [<-|[]]; discriminate.
  - apply (proj2 unrecognized_type_kept_outside_buckets
             (at_time "T1") (row "i5" "slides") loaded).
    + intros []; discriminate.
    + intros y [<-|[<-|[]]]; discriminate.
    + intros [] y; simpl; intros H;
        repeat (destruct H as [<-|H]; [discriminate|]); destruct H.
Defined.

(** C3: in a state whose full list is [i1; i2], with [quizItems = [i1]] and
    [videoItems = [i2]], [i1] of type quiz and [i2] of type video, an UPDATE
    notification for [i1] puts the transformed new record in the place of
    [i1] in the full list and in [quizItems], and leaves [i2] where it is in
    the full list and in [videoItems]; the other four lists are unchanged. *)
Theorem update_replaces_quiz_item
    (clk : clock_reads) (i1 i2 new : obj) (s : state) :
  learningItems s = [i1; i2] ->
  quizItems s = [i1] ->
  videoItems s = [i2] ->
  item_type i1 = VStr "quiz" ->
  item_type i2 = VStr "video" ->
  strict_eq (item_id i1) (item_id i2) = false ->
  strict_eq (item_id i1) (item_id new) = true ->
  item_type new = VStr "quiz" ->
  let s' := onUpdate clk new s in
  learningItems s' = [transformPayload clk new; i2] /\
  quizItems s' = [transformPayload clk new] /\
  videoItems s' = [i2] /\
  flashcardItems s' = flashcardItems s /\
  keyConceptsItems s' = keyConceptsItems s /\
  methodologyItems s' = methodologyItems s /\
  resultsItems s' = resultsItems s.
Proof.
  intros HL HQ HV _ _ Hne Heq Hty s'. subst s'.
  assert (E2 : strict_eq (item_id i2) (item_id new) = false).
  { rewrite <- (strict_eq_true _ _ Heq). now rewrite strict_eq_sym. }
  unfold onUpdate, switch_bucket.
  rewrite transformPayload_type, Hty. cbn [bucket_of strict_eq String.eqb Ascii.eqb Bool.eqb].
  cbn [learningItems quizItems videoItems flashcardItems keyConceptsItems
       methodologyItems resultsItems setQuizItems setLearningItems].
  rewrite HL, HQ, HV. unfold replace_by_id. cbn [map].
  rewrite transformPayload_id, Heq, E2. repeat split; reflexivity.
Qed.

Lemma update_replaces_quiz_item_witness :
  let new := row_with_content "i1" "quiz" "new content" in
  let s' := onUpdate (at_time "T1") new loaded in
  learningItems s' =
    [transformPayload (at_time "T1") new;
     transformFetched (at_time "T0") (row "i2" "video")] /\
  quizItems s' = [transformPayload (at_time "T1") new] /\
  videoItems s' = [transformFetched (at_time "T0") (row "i2" "video")] /\
  flashcardItems s' = flashcardItems loaded /\
  keyConceptsItems s' = keyConceptsItems loaded /\
  methodologyItems s' = methodologyItems loaded /\
  resultsItems s' = resultsItems loaded.
Proof.
  apply (update_replaces_quiz_item (at_time "T1")
           (transformFetched (at_time "T0") (row "i1" "quiz"))
           (transformFetched (at_time "T0") (row "i2" "video"))
           (row_with_content "i1" "quiz" "new content") loaded);
    reflexivity.
Defined.

(** C4, as stated, fails: the payload below has no timestamps, so each
    application fills them from the clock; applied at "T1" and again at "T2",
    the stored record carries "T2", and applied once it carries "T1". *)
Lemma update_twice_with_clock_defaults_differs :
  onUpdate (at_time "T2") (bare_row "i1" "quiz")
           (onUpdate (at_time "T1") (bare_row "i1" "quiz") loaded)
  <> onUpdate (at_time "T1") (bare_row "i1" "quiz") loaded.
Proof.
  intros H. apply (f_equal quizItems) in H. vm_compute in H. discriminate H.
Qed.

(** C4, amended: applying the same UPDATE notification twice yields the same
    full list and the same six lists as applying it once, provided that the
    two applications read the same clock values or that the payload carries
    non-empty [created_at] and [updated_at]. *)
Theorem update_twice_same_as_once
    (s : state) (clk1 clk2 : clock_reads) (new : obj) :
  clk1 = clk2 \/
  (truthy (lookup "created_at" new) = true /\
   truthy (lookup "updated_at" new) = true) ->
  onUpdate clk2 new (onUpdate clk1 new s) = onUpdate clk1 new s.
Proof.
  intros H. rewrite onUpdate_absorbs.
  destruct H as [->|[Hc Hu]]; [reflexivity|].
  unfold onUpdate. now rewrite (transformPayload_clock clk2 clk1 new Hc Hu).
Qed.

Lemma update_twice_same_as_once_witness :
  onUpdate (at_time "T2") (row_with_content "i1" "quiz" "new")
           (onUpdate (at_time "T1") (row_with_content "i1" "quiz" "new") loaded)
  = onUpdate (at_time "T1") (row_with_content "i1" "quiz" "new") loaded.
Proof.
  apply (update_twice_same_as_once loaded (at_time "T1") (at_time "T2")
           (row_with_content "i1" "quiz" "new")).
  right. split; reflexivity.
Defined.

End ItemsClaims.

(** ** The paper snapshot: claims *)

Module PaperClaims.

Import Paper PaperSpec Samples.

(** C5, as stated, fails: a row without [pdf_url] whose [source_type] is
    "pdf" resolves to its [source_url], which is neither the stored URL, nor
    derived from a source identifier, nor null. *)
Lemma source_url_fallback_not_in_precedence :
  resolvePdfUrl uploadedPaper = VStr "https://files.example/upload.pdf" /\
  resolvePdfUrl uploadedPaper <> spec_resolvePdfUrl uploadedPaper.
Proof. split; [reflexivity | discriminate]. Qed.

(** C5, amended: the resolved document URL is the stored [pdf_url] when it is
    truthy; otherwise, the arXiv PDF URL of [arxiv_id] when [source_type] is
    "arxiv" and [arxiv_id] is truthy; otherwise [source_url] when
    [source_type] is "pdf"; otherwise the stored, falsy [pdf_url] itself
    (null when the row stores null).  In particular a row without [pdf_url],
    of source type "arxiv" and [arxiv_id] "1234", resolves to
    https://arxiv.org/pdf/1234. *)
Theorem resolvePdfUrl_precedence (data : obj) :
  (truthy (lookup "pdf_url" data) = true ->
   resolvePdfUrl data = lookup "pdf_url" data) /\
  (truthy (lookup "pdf_url" data) = false ->
   lookup "source_type" data = VStr "arxiv" ->
   truthy (lookup "arxiv_id" data) = true ->
   resolvePdfUrl data =
   VStr ("https://arxiv.org/pdf/" ++ to_string (lookup "arxiv_id" data))) /\
  (truthy (lookup "pdf_url" data) = false ->
   lookup "source_type" data = VStr "pdf" ->
   resolvePdfUrl data = lookup "source_url" data) /\
  (truthy (lookup "pdf_url" data) = false ->
   ~ (lookup "source_type" data = VStr "arxiv" /\
      truthy (lookup "arxiv_id" data) = true) ->
   lookup "source_type" data <> VStr "pdf" ->
   resolvePdfUrl data = lookup "pdf_url" data) /\
  (truthy (lookup "pdf_url" data) = false ->
   lookup "source_type" data = VStr "arxiv" ->
   lookup "arxiv_id" data = VStr "1234" ->
   resolvePdfUrl data = VStr "https://arxiv.org/pdf/1234").
Proof.
  unfold resolvePdfUrl. repeat split.
  - now intros ->.
  - now intros -> -> ->.
  - now intros -> ->.
  - intros -> Hn Hp. simpl.
    destruct (strict_eq (lookup "source_type" data) (VStr "arxiv")) eqn:E1.
    + apply strict_eq_true in E1.
      destruct (truthy (lookup "arxiv_id" data)) eqn:E2; [now elim Hn|].
      simpl. rewrite E1. reflexivity.
    + simpl.
      destruct (strict_eq (lookup "source_type" data) (VStr "pdf")) eqn:E3;
        [|reflexivity].
      apply strict_eq_true in E3. now elim Hp.
  - now intros -> -> ->.
Qed.

Lemma resolvePdfUrl_precedence_witness :
  resolvePdfUrl paperA = VStr "https://files.example/a.pdf" /\
  resolvePdfUrl arxivPaper = VStr "https://arxiv.org/pdf/1234" /\
  resolvePdfUrl uploadedPaper = VStr "https://files.example/upload.pdf" /\
  resolvePdfUrl paperB_without_url = VNull.
Proof.
  split; [|split; [|split]].
  - apply (proj1 (resolvePdfUrl_precedence paperA)). reflexivity.
  - apply (proj1 (proj2 (resolvePdfUrl_precedence arxivPaper))); reflexivity.
  - apply (proj1 (proj2 (proj2 (resolvePdfUrl_precedence uploadedPaper))));
      reflexivity.
  - apply (proj1 (proj2 (proj2 (proj2
             (resolvePdfUrl_precedence paperB_without_url))))).
    + reflexivity.
    + intros [H _]. discriminate H.
    + discriminate.
Defined.

(** The callback of the first effect of a hook closes over the initial
    state of [initialPdfUrl], null. *)
Lemma first_effect_closes_over_null (paperId : string) :
  paperId <> "" ->
  channel (step mount (Render paperId)) = Some (paperId, VNull).
Proof.
  intros H. apply String.eqb_neq in H. simpl. now rewrite H.
Qed.

(** While the callback's [initialPdfUrl] is falsy, an UPDATE notification
    takes every field from the payload, except [pdf_url], which stays as the
    snapshot has it. *)
Lemma update_keeps_url_when_closure_falsy
    (h : hook) (chan : string) (closed : value) (cur new : obj) :
  channel h = Some (chan, closed) ->
  truthy closed = false ->
  paper h = Some cur ->
  pdf_url (step h (Update chan new)) = pdf_url h /\
  exists merged, paper (step h (Update chan new)) = Some merged /\
    forall k, k <> "pdf_url" -> lookup k merged = lookup k new.
Proof.
  intros Hc Ht Hp. unfold pdf_url. simpl.
  rewrite Hc, String.eqb_refl. simpl. rewrite Hp. simpl.
  unfold or_else. rewrite Ht. split.
  - apply lookup_set_same.
  - eexists. split; [reflexivity|]. intros k Hk. now apply lookup_set_other.
Qed.

(** C6 at its failing input: the hook tracks paper A, whose URL resolves to
    a.pdf, then paper B, whose URL resolves to b.pdf.  The callback of B's
    subscription was created when the identifier changed, and closed over
    the [initialPdfUrl] of that render, A's.  The next UPDATE notification
    for B replaces the URL of B's snapshot by A's. *)
Lemma update_after_id_change_shows_previous_url :
  let h := steps mount [Render "A"; FetchOk "A" paperA;
                        Render "B"; FetchOk "B" paperB] in
  deps h = Some "B" /\
  pdf_url h = VStr "https://files.example/b.pdf" /\
  pdf_url (step h (Update "B" updateB)) = VStr "https://files.example/a.pdf".
Proof. repeat split. Qed.

(** C10 at its failing input: as above, but B's fetch resolves no URL.  The
    UPDATE notification does not leave the snapshot's URL null: it becomes
    the URL of the paper tracked before. *)
Lemma null_url_replaced_by_previous_url :
  let h := steps mount [Render "A"; FetchOk "A" paperA;
                        Render "B"; FetchOk "B" paperB_without_url] in
  deps h = Some "B" /\
  pdf_url h = VNull /\
  pdf_url (step h (Update "B" updateB)) = VStr "https://files.example/a.pdf".
Proof. repeat split. Qed.

(** C9, as stated, fails: the hooks tracked A, now track B, and B's answer
    has arrived; the late answer for A then replaces B's snapshot and B's
    item lists. *)
Lemma late_answer_overwrites_current_identifier :
  (let h := steps mount [Render "A"; Render "B"; FetchOk "B" paperB] in
   deps h = Some "B" /\
   paper (step h (FetchOk "A" paperA)) <> paper h /\
   pdf_url (step h (FetchOk "A" paperA)) = VStr "https://files.example/a.pdf")
  /\
  (let clk := fun _ : nat => at_time "T0" in
   let g := Items.steps Items.mount
              [Items.Render "A"; Items.Render "B";
               Items.FetchOk "B" clk (Some [row "b1" "quiz"])] in
   Items.deps g = Some "B" /\
   Items.learningItems
     (Items.st (Items.step g (Items.FetchOk "A" clk (Some [row "a1" "video"]))))
   = [Items.transformFetched (at_time "T0") (row "a1" "video")] /\
   Items.quizItems
     (Items.st (Items.step g (Items.FetchOk "A" clk (Some [row "a1" "video"]))))
   = []).
Proof.
  split.
  - split; [reflexivity|]. split; [discriminate | reflexivity].
  - repeat split.
Qed.

(** C9, amended: the answer of a fetch that is awaited is applied when it
    arrives, whatever identifier the hook tracks by then; the identifier of
    the request is not compared with the current one.  The paper snapshot
    becomes the answered row with its resolved URL; the item lists become
    the transformed answered rows and their six filters. *)
Theorem fetch_answer_applied_unconditionally :
  (forall (h : hook) (requested : string) (data : obj),
      Items.awaiting requested (inflight h) = true ->
      paper (step h (FetchOk requested data)) =
        Some (set "pdf_url" (resolvePdfUrl data) data) /\
      initialPdfUrl (step h (FetchOk requested data)) = resolvePdfUrl data /\
      deps (step h (FetchOk requested data)) = deps h) /\
  (forall (g : Items.hook) (requested : string) clk (rows : list obj),
      Items.awaiting requested (Items.inflight g) = true ->
      Items.learningItems
        (Items.st (Items.step g (Items.FetchOk requested clk (Some rows)))) =
        Items.transformAll clk 0 rows /\
      ItemsSpec.consistent
        (Items.st (Items.step g (Items.FetchOk requested clk (Some rows)))) /\
      Items.deps (Items.step g (Items.FetchOk requested clk (Some rows))) =
        Items.deps g).
Proof.
  split.
  - intros h requested data H. simpl. rewrite H. repeat split.
  - intros g requested clk rows H. simpl. rewrite H. simpl.
    repeat split. apply ItemsFacts.onFetched_consistent.
Qed.

Lemma fetch_answer_applied_unconditionally_witness :
  (let h := steps mount [Render "A"; Render "B"; FetchOk "B" paperB] in
   paper (step h (FetchOk "A" paperA)) =
     Some (set "pdf_url" (resolvePdfUrl paperA) paperA) /\
   initialPdfUrl (step h (FetchOk "A" paperA)) = resolvePdfUrl paperA /\
   deps (step h (FetchOk "A" paperA)) = Some "B") /\
  (let clk := fun _ : nat => at_time "T0" in
   let g := Items.steps Items.mount [Items.Render "A"; Items.Render "B"] in
   let g' := Items.step g (Items.FetchOk "A" clk (Some [row "a1" "video"])) in
   Items.learningItems (Items.st g') =
     Items.transformAll clk 0 [row "a1" "video"] /\
   ItemsSpec.consistent (Items.st g') /\
   Items.deps g' = Some "B").
Proof.
  split.
  - apply (proj1 fetch_answer_applied_unconditionally
             (steps mount [Render "A"; Render "B"; FetchOk "B" paperB])
             "A" paperA).
    reflexivity.
  - apply (proj2 fetch_answer_applied_unconditionally
             (Items.steps Items.mount [Items.Render "A"; Items.Render "B"])
             "A" (fun _ : nat => at_time "T0") [row "a1" "video"]).
    reflexivity.
Defined.

End PaperClaims.

(** ** Video descriptors: properties and claims *)

Module VideosClaims.

Import Videos MoreSamples.

Lemma get_truthy (v : value) (k : string) :
  truthy (get_opt v k) = true -> get v k = Ok (get_opt v k).
Proof. destruct v; simpl; intros H; try reflexivity; discriminate. Qed.

Lemma get_array (v : value) (k : string) :
  is_array (get_opt v k) = true -> get v k = Ok (get_opt v k).
Proof. destruct v; simpl; intros H; try reflexivity; discriminate. Qed.

(** The chain leaves in [videos] the payload of the first test that
    succeeds, and the empty array when none does; reading the payload never
    throws. *)
Lemma locate_first_match (videoItem : obj) :
  locate videoItem =
  Ok match first_match videoItem with
     | Some sh => payload sh videoItem
     | None => VArr []
     end.
Proof.
  unfold locate, first_match, shapes. cbn [find matches].
  destruct (truthy (get_opt (lookup "metadata" videoItem) "video")) eqn:E1.
  { now rewrite (get_truthy _ _ E1). }
  destruct (truthy (get_opt (lookup "data" videoItem) "video")) eqn:E2.
  { now rewrite (get_truthy _ _ E2). }
  destruct (is_array (get_opt (lookup "metadata" videoItem) "videos")) eqn:E3.
  { now rewrite (get_array _ _ E3). }
  destruct (truthy (lookup "videos" videoItem)) eqn:E4; [reflexivity|].
  destruct (truthy (get_opt (lookup "data" videoItem) "videos")) eqn:E5.
  { now rewrite (get_truthy _ _ E5). }
  destruct (has_field (lookup "data" videoItem) "video_id"); [reflexivity|].
  now destruct (has_field (lookup "metadata" videoItem) "video_id").
Qed.

(** What the chain misses: a single object under [data.videos] is not
    wrapped in an array, as the one under [videos] is, and the loop over it
    throws. *)
Lemma data_videos_single_object_throws :
  first_match item_data_videos_single = Some DataVideos /\
  extractEffect [item_data_videos_single] [] =
  Throw "TypeError: videos.forEach is not a function".
Proof. split; reflexivity. Qed.

(** C7, as stated, fails: the item below matches none of the six shapes of
    the specification, and one descriptor is extracted from it, from the
    array under [data.videos], a seventh shape that the chain tries between
    the fourth and the fifth. *)
Lemma data_videos_is_a_seventh_shape :
  spec_matches_none item_data_videos = true /\
  extractItem [] item_data_videos =
    Ok [[("video_id", VStr "abc"); ("itemId", VStr "i7")]] /\
  extractItem [] item_data_videos <> Ok [].
Proof. split; [reflexivity|]. split; [reflexivity | discriminate]. Qed.

(** C7, amended: the extraction tries seven shapes in the order
    [metadata.video], [data.video], array [metadata.videos], [videos]
    (single or array), [data.videos], [data.video_id], [metadata.video_id],
    and takes the payload of the first that matches, alone.  An item that
    matches none adds no descriptor and raises no error; when the payload of
    the first match is an array, one descriptor per element is added, in
    order, each carrying the owning item's [id] as [itemId]; and the payload
    of every shape but [data.videos] is an array. *)
Theorem extraction_takes_first_match (acc : list obj) (videoItem : obj) :
  (first_match videoItem = None -> extractItem acc videoItem = Ok acc) /\
  (forall sh l,
      first_match videoItem = Some sh ->
      payload sh videoItem = VArr l ->
      extractItem acc videoItem = Ok (acc ++ map (descriptor videoItem) l)) /\
  (forall sh,
      first_match videoItem = Some sh -> sh <> DataVideos ->
      exists l, payload sh videoItem = VArr l) /\
  (forall video,
      lookup "itemId" (descriptor videoItem video) = lookup "id" videoItem).
Proof.
  repeat split.
  - intros H. unfold extractItem. rewrite locate_first_match, H. simpl.
    now rewrite app_nil_r.
  - intros sh l H Hl. unfold extractItem.
    rewrite locate_first_match, H. simpl. now rewrite Hl.
  - intros sh H Hsh. unfold first_match in H.
    apply find_some in H as [_ Hm].
    destruct sh; simpl in *; try (eexists; reflexivity).
    + destruct (get_opt _ _); try discriminate. eexists; reflexivity.
    + destruct (lookup "videos" videoItem); simpl; eexists; reflexivity.
    + now elim Hsh.
  - intros video. apply lookup_set_same.
Qed.

Lemma extraction_takes_first_match_witness :
  extractItem [] item_i9 =
    Ok [[("video_id", VStr "abc"); ("itemId", VStr "i9")]] /\
  extractItem [] [("id", VStr "i0"); ("type", VStr "video")] = Ok [].
Proof.
  split.
  - apply (proj1 (proj2 (extraction_takes_first_match [] item_i9))
             MetadataVideo [VObj [("video_id", VStr "abc")]]);
      reflexivity.
  - apply (proj1 (extraction_takes_first_match []
                    [("id", VStr "i0"); ("type", VStr "video")])).
    reflexivity.
Defined.

End VideosClaims.

(** ** Step filtering: properties and claims *)

Module JourneyClaims.

Import Journey JourneySpec MoreSamples.

Lemma classify_cases (step : node) :
  classify step = Ok ("summary", 1) \/ classify step = Ok ("concepts", 2) \/
  classify step = Ok ("methodology", 3) \/ classify step = Ok ("results", 4) \/
  classify step = Ok ("", 999) \/ exists m, classify step = Throw m.
Proof.
  unfold classify.
  destruct (title_or_name step "Paper Summary" "SummaryStep") as [[|]|m];
    simpl; [tauto| |eauto 10].
  destruct (title_or_name step "Key Concepts" "KeyConceptsStep") as [[|]|m];
    simpl; [tauto| |eauto 10].
  destruct (title_or_name step "Methodology" "MethodologyStep") as [[|]|m];
    simpl; [tauto| |eauto 10].
  destruct (title_or_name step "Results" "ResultsStep") as [[|]|m];
    simpl; [tauto|tauto|eauto 10].
Qed.

Lemma entry_order (step : node) (index : nat) (e : readingStep) :
  entry step index = Some e ->
  rs_step e = step /\ reading_order step = Some (rs_order e) /\
  (rs_order e = 1 \/ rs_order e = 2 \/ rs_order e = 3 \/ rs_order e = 4).
Proof.
  unfold entry, reading_order.
  destruct (classify_cases step) as [H|[H|[H|[H|[H|[m H]]]]]]; rewrite H;
    simpl; try discriminate; intros [= <-]; simpl; auto 10.
Qed.

Lemma entry_None (step : node) (index : nat) :
  entry step index = None -> reading_order step = None.
Proof.
  unfold entry, reading_order.
  destruct (classify step) as [[ty o]|m]; [|reflexivity].
  now destruct (is_reading_type ty).
Qed.

Lemma collect_entry (acc : list readingStep) (step : node) (index : nat) :
  collect acc step index =
  acc ++ match entry step index with Some e => [e] | None => [] end.
Proof.
  unfold collect, entry.
  destruct (classify step) as [[ty o]|m]; [|now rewrite app_nil_r].
  destruct (is_reading_type ty); [reflexivity | now rewrite app_nil_r].
Qed.

Lemma collectAll_entries (steps : list node) :
  forall acc index, collectAll acc index steps = acc ++ entries index steps.
Proof.
  induction steps as [|step rest IH]; intros acc index; simpl.
  - now rewrite app_nil_r.
  - rewrite IH, collect_entry, <- app_assoc.
    now destruct (entry step index).
Qed.

Lemma entries_order (steps : list node) :
  forall index e, In e (entries index steps) ->
    rs_order e = 1 \/ rs_order e = 2 \/ rs_order e = 3 \/ rs_order e = 4.
Proof.
  induction steps as [|step rest IH]; intros index e; simpl; [easy|].
  destruct (entry step index) as [e0|] eqn:E; [|apply IH].
  intros [<-|H]; [|now apply IH in H]. now apply entry_order in E.
Qed.

Lemma of_order_entries (k : nat) (steps : list node) :
  forall index,
    map rs_step (of_order k (entries index steps)) =
    filter (has_order k) steps.
Proof.
  induction steps as [|step rest IH]; intros index; simpl; [reflexivity|].
  unfold has_order at 1.
  destruct (entry step index) as [e|] eqn:E.
  - apply entry_order in E as (Hs & Ho & _). rewrite Ho. simpl.
    destruct (Nat.eqb (rs_order e) k); simpl; now rewrite ?Hs, IH.
  - apply entry_None in E. rewrite E. apply IH.
Qed.

Lemma of_order_In (k : nat) (l : list readingStep) (e : readingStep) :
  In e (of_order k l) -> rs_order e = k.
Proof.
  unfold of_order. intros H. apply filter_In in H as [_ H].
  now apply Nat.eqb_eq.
Qed.

Lemma insert_after (a : readingStep) (l1 l2 : list readingStep) :
  (forall x, In x l1 -> rs_order x < rs_order a) ->
  insert a (l1 ++ l2) = l1 ++ insert a l2.
Proof.
  induction l1 as [|b l1 IH]; intros H; simpl; [reflexivity|].
  assert (Hb : rs_order b < rs_order a) by (apply H; now left).
  apply Nat.leb_gt in Hb. rewrite Hb, IH; [reflexivity|].
  intros x Hx. apply H. now right.
Qed.

Lemma insert_before (a : readingStep) (l : list readingStep) :
  (forall x, In x l -> rs_order a <= rs_order x) -> insert a l = a :: l.
Proof.
  destruct l as [|b l]; intros H; simpl; [reflexivity|].
  assert (Hb : rs_order a <= rs_order b) by (apply H; now left).
  apply Nat.leb_le in Hb. now rewrite Hb.
Qed.

Ltac orders :=
  let x := fresh "x" in
  let Hx := fresh "Hx" in
  intros x Hx; rewrite ?in_app_iff in Hx;
  repeat (destruct Hx as [Hx|Hx]; [apply of_order_In in Hx; lia|]);
  apply of_order_In in Hx; lia.

(** The stable sort puts the records in the four groups of equal order, each
    in collection order. *)
Lemma sort_groups (l : list readingStep) :
  (forall e, In e l ->
     rs_order e = 1 \/ rs_order e = 2 \/ rs_order e = 3 \/ rs_order e = 4) ->
  sort l = of_order 1 l ++ of_order 2 l ++ of_order 3 l ++ of_order 4 l.
Proof.
  induction l as [|a l IH]; intros H; [reflexivity|].
  simpl sort. rewrite IH by (intros e He; apply H; now right).
  unfold of_order at 5 6 7 8. simpl filter. fold (of_order 1 l) (of_order 2 l)
    (of_order 3 l) (of_order 4 l).
  destruct (H a (or_introl eq_refl)) as [E|[E|[E|E]]]; rewrite E; simpl.
  - apply insert_before. rewrite E. orders.
  - rewrite insert_after by (rewrite E; orders).
    rewrite insert_before by (rewrite E; orders). reflexivity.
  - rewrite (app_assoc (of_order 1 l)).
    rewrite insert_after by (rewrite E; orders).
    rewrite insert_before by (rewrite E; orders).
    now rewrite <- app_assoc.
  - rewrite (app_assoc (of_order 2 l)), (app_assoc (of_order 1 l)).
    rewrite insert_after by (rewrite E; orders).
    rewrite insert_before by (rewrite E; orders).
    now rewrite <- !app_assoc.
Qed.

Lemma push_all (l : list readingStep) :
  forall acc,
    fst (fold_left (fun acc item => push acc (rs_step item) (rs_index item))
                   l acc) = fst acc ++ map rs_step l.
Proof.
  induction l as [|a l IH]; intros acc; simpl.
  - now rewrite app_nil_r.
  - rewrite IH. simpl. now rewrite <- app_assoc.
Qed.

Lemma selected_element (f : ContentType) (step : node) :
  is_element step = true -> selected f step = Ok (keeps f step).
Proof.
  destruct step as [| |ty title children|]; try discriminate. intros _.
  unfold keeps.
  destruct f; simpl; try reflexivity; unfold title_or_name;
    destruct (includes _ _); try reflexivity; now destruct ty.
Qed.

Lemma selectAll_elements (f : ContentType) (steps : list node) :
  forallb is_element steps = true ->
  forall acc index, exists m,
    selectAll f acc index steps = Ok (fst acc ++ filter (keeps f) steps, m).
Proof.
  induction steps as [|step rest IH]; intros H acc index; simpl.
  - exists (snd acc). rewrite app_nil_r. now destruct acc.
  - simpl in H. apply andb_true_iff in H as [Hs Hr].
    rewrite (selected_element f step Hs). simpl.
    destruct (keeps f step).
    + destruct (IH Hr (push acc step index) (S index)) as [m Hm].
      exists m. rewrite Hm. simpl. now rewrite <- app_assoc.
    + apply (IH Hr).
Qed.

(** The filtered steps by order number: the reading filter yields the
    steps of order 1, then those of order 2, of order 3 and of order 4, each
    group in original order, and no other step; the video, quiz, flashcard, slides
    and consulting filters yield, on a list of elements, the steps they
    select in original order; the filter "all" yields the list itself.  In
    particular [Summary; Video; Results; Concepts] filtered by "reading" is
    [Summary; Concepts; Results]. *)
Theorem filtered_steps_order :
  (forall steps c, exists v,
      filterEffect reading steps c = Ok v /\
      filteredSteps v =
        filter (has_order 1) steps ++ filter (has_order 2) steps ++
        filter (has_order 3) steps ++ filter (has_order 4) steps) /\
  (forall f steps c,
      f <> reading -> f <> all -> forallb is_element steps = true ->
      exists v, filterEffect f steps c = Ok v /\
                filteredSteps v = filter (keeps f) steps) /\
  (forall steps c, exists v,
      filterEffect all steps c = Ok v /\ filteredSteps v = steps) /\
  (forall c, exists v,
      filterEffect reading [Summary; Video; Results; Concepts] c = Ok v /\
      filteredSteps v = [Summary; Concepts; Results]).
Proof.
  repeat split.
  - intros steps c. eexists. split; [reflexivity|].
    cbn [filteredSteps finish]. rewrite push_all, collectAll_entries. simpl.
    rewrite sort_groups by apply entries_order.
    now rewrite !map_app, !of_order_entries.
  - intros f steps c Hr Ha He.
    destruct (selectAll_elements f steps He ([], []) 0) as [m Hm].
    destruct f; try (now elim Hr); try (now elim Ha);
      unfold filterEffect; rewrite Hm; simpl; eexists; split; reflexivity.
  - intros steps c. eexists. split; reflexivity.
  - intros c. eexists. split; reflexivity.
Qed.

Lemma filtered_steps_order_witness :
  exists v, filterEffect video [Summary; Video; Results; Quiz; Video] 2 = Ok v /\
            filteredSteps v = filter (keeps video)
                                     [Summary; Video; Results; Quiz; Video].
Proof.
  apply (proj1 (proj2 filtered_steps_order) video
           [Summary; Video; Results; Quiz; Video] 2);
    [discriminate | discriminate | reflexivity].
Defined.

End JourneyClaims.

(** ** More properties of the item handlers *)

Module ItemsExtras.

Import Items ItemsSpec ItemsFacts ExtraSpec Samples.

Lemma filter_all (A : Type) (p : A -> bool) (l : list A) :
  (forall x, In x l -> p x = true) -> filter p l = l.
Proof.
  induction l as [|a l IH]; intros H; simpl; [reflexivity|].
  rewrite (H a (or_introl eq_refl)), IH; [reflexivity|].
  intros x Hx. apply H. now right.
Qed.

Lemma filter_comm (A : Type) (p q : A -> bool) (l : list A) :
  filter p (filter q l) = filter q (filter p l).
Proof.
  induction l as [|a l IH]; simpl; [reflexivity|].
  destruct (p a) eqn:P, (q a) eqn:Q; simpl; rewrite ?P, ?Q, IH; reflexivity.
Qed.

Lemma filter_idem (A : Type) (p : A -> bool) (l : list A) :
  filter p (filter p l) = filter p l.
Proof.
  apply filter_all. intros x Hx. now apply filter_In in Hx.
Qed.

(** X1: INSERT notifications append in arrival order: after a run of
    INSERTs the full list is the old one followed by the transformed new
    records in arrival order, and each bucket is the old one followed by
    the new records of its tag, in the same order. *)
Theorem inserts_append_in_arrival_order
    (l : list (clock_reads * obj)) (s : state) :
  learningItems (run s (inserts l)) = learningItems s ++ inserted l /\
  forall b, bucket_items b (run s (inserts l)) =
            bucket_items b s ++ filter (in_bucket b) (inserted l).
Proof.
  revert s. induction l as [|[clk raw] l IH]; intros s.
  - simpl. split; [|intros b]; now rewrite app_nil_r.
  - change (run s (inserts ((clk, raw) :: l)))
      with (run (onInsert clk raw s) (inserts l)).
    change (inserted ((clk, raw) :: l))
      with (transformPayload clk raw :: inserted l).
    destruct (IH (onInsert clk raw s)) as [HL HB]. split.
    + rewrite HL. unfold onInsert.
      rewrite learningItems_switch. simpl. now rewrite <- app_assoc.
    + intros b. rewrite (HB b). unfold onInsert.
      rewrite bucket_items_switch, bucket_items_setLearningItems.
      cbn [filter]. rewrite in_bucket_same, transformPayload_type.
      destruct (same_bucket _ _); [now rewrite <- app_assoc | reflexivity].
Qed.

(** X2: a DELETE notification is idempotent: a second delivery of it
    changes nothing. *)
Theorem delete_twice_same_as_once (old : obj) (s : state) :
  onDelete old (onDelete old s) = onDelete old s.
Proof.
  unfold onDelete, switch_bucket, remove_by_id.
  destruct s, (bucket_of (item_type old)) as [[]|];
    unfold setLearningItems, setVideoItems, setQuizItems, setFlashcardItems,
      setKeyConceptsItems, setMethodologyItems, setResultsItems; simpl;
    now rewrite !filter_idem.
Qed.

(** X3: two DELETE notifications commute: the lists do not depend on the
    order in which they arrive. *)
Theorem deletes_commute (old1 old2 : obj) (s : state) :
  onDelete old1 (onDelete old2 s) = onDelete old2 (onDelete old1 s).
Proof.
  unfold onDelete, switch_bucket, remove_by_id.
  destruct s, (bucket_of (item_type old1)) as [[]|],
    (bucket_of (item_type old2)) as [[]|];
    unfold setLearningItems, setVideoItems, setQuizItems, setFlashcardItems,
      setKeyConceptsItems, setMethodologyItems, setResultsItems; simpl;
    f_equal; apply filter_comm.
Qed.

Lemma replace_by_id_ids (u : obj) (l : list obj) :
  map item_id (replace_by_id u l) = map item_id l.
Proof.
  unfold replace_by_id. rewrite map_map. apply map_ext. intros a.
  destruct (strict_eq (item_id a) (item_id u)) eqn:E; [|reflexivity].
  symmetry. now apply strict_eq_true.
Qed.

(** X4: an UPDATE notification never adds, removes or moves an item: in
    the full list and in each of the six lists, the sequence of identifiers
    is the same before and after.  An UPDATE for an identifier that is not
    in the lists is therefore dropped. *)
Theorem update_keeps_identifiers (clk : clock_reads) (new : obj) (s : state) :
  map item_id (learningItems (onUpdate clk new s)) =
    map item_id (learningItems s) /\
  forall b, map item_id (bucket_items b (onUpdate clk new s)) =
            map item_id (bucket_items b s).
Proof.
  unfold onUpdate. split.
  - rewrite learningItems_switch. simpl. apply replace_by_id_ids.
  - intros b. rewrite bucket_items_switch, bucket_items_setLearningItems.
    destruct (same_bucket _ _); [apply replace_by_id_ids | reflexivity].
Qed.

Lemma remove_appended (raw new : obj) (l : list obj) :
  item_id new = item_id raw ->
  strict_eq (item_id raw) (item_id raw) = true ->
  (forall y, In y l -> strict_eq (item_id y) (item_id raw) = false) ->
  remove_by_id raw (l ++ [new]) = l.
Proof.
  intros Hid Hrefl Hl. unfold remove_by_id. rewrite filter_app. simpl.
  rewrite Hid, Hrefl. simpl. rewrite app_nil_r. apply filter_all.
  intros y Hy. now rewrite (Hl y Hy).
Qed.

(** X5: an INSERT followed by the DELETE of the same row gives back the
    state before the INSERT, when the row's identifier is a primitive and no
    item of the state has it. *)
Theorem insert_then_delete (clk : clock_reads) (raw : obj) (s : state) :
  strict_eq (item_id raw) (item_id raw) = true ->
  (forall y, In y (learningItems s) ->
             strict_eq (item_id y) (item_id raw) = false) ->
  (forall b y, In y (bucket_items b s) ->
               strict_eq (item_id y) (item_id raw) = false) ->
  onDelete raw (onInsert clk raw s) = s.
Proof.
  intros Hrefl HL HB.
  pose proof (transformPayload_id clk raw) as Hid.
  pose proof (HB Video) as HV. pose proof (HB Quiz) as HQ.
  pose proof (HB Flashcard) as HF. pose proof (HB Concepts) as HC.
  pose proof (HB Methodology) as HM. pose proof (HB Results) as HR.
  unfold onDelete, onInsert, switch_bucket.
  destruct s; simpl in *.
  destruct (bucket_of (item_type raw)) as [[]|];
    unfold setLearningItems, setVideoItems, setQuizItems, setFlashcardItems,
      setKeyConceptsItems, setMethodologyItems, setResultsItems; simpl;
    rewrite ?(remove_appended raw _ _ Hid Hrefl HL),
      ?(remove_appended raw _ _ Hid Hrefl HV),
      ?(remove_appended raw _ _ Hid Hrefl HQ),
      ?(remove_appended raw _ _ Hid Hrefl HF),
      ?(remove_appended raw _ _ Hid Hrefl HC),
      ?(remove_appended raw _ _ Hid Hrefl HM),
      ?(remove_appended raw _ _ Hid Hrefl HR); reflexivity.
Qed.

Lemma insert_then_delete_witness :
  onDelete (row "i3" "concepts")
           (onInsert (at_time "T1") (row "i3" "concepts") loaded) = loaded.
Proof.
  apply (insert_then_delete (at_time "T1") (row "i3" "concepts") loaded).
  - reflexivity.
  - intros y [<-|[<-|[]]]; reflexivity.
  - intros [] y; simpl; intros H;
      repeat (destruct H as [<-|H]; [reflexivity|]); destruct H.
Defined.

End ItemsExtras.

(** ** The normalization of a row *)

Module TransformExtras.

Import Items ItemsSpec ItemsFacts ExtraSpec Samples.

Ltac lookups :=
  repeat (rewrite lookup_set_same || rewrite lookup_set_other by discriminate).

Lemma or_else_cases (a b : value) :
  truthy (or_else a b) = true \/ or_else a b = b.
Proof. unfold or_else. destruct (truthy a) eqn:E; auto. Qed.

Lemma or_else_idem (a b : value) : or_else (or_else a b) b = or_else a b.
Proof.
  unfold or_else. destruct (truthy a) eqn:E; [now rewrite E|].
  now destruct (truthy b).
Qed.

Lemma has_key_set (k k' : string) (v : value) (o : obj) :
  has_key k (set k' v o) = String.eqb k k' || has_key k o.
Proof.
  induction o as [|[k0 v0] o IH]; simpl.
  - now rewrite orb_false_r.
  - destruct (String.eqb k' k0) eqn:E; simpl.
    + apply String.eqb_eq in E. subst k0.
      destruct (String.eqb k k'); reflexivity.
    + rewrite IH. destruct (String.eqb k k'), (String.eqb k k0); reflexivity.
Qed.

Lemma set_present (k : string) (v : value) (o : obj) :
  has_key k o = true -> lookup k o = v -> set k v o = o.
Proof.
  induction o as [|[k0 v0] o IH]; simpl; [discriminate|].
  destruct (String.eqb k k0) eqn:E; simpl.
  - apply String.eqb_eq in E. now intros _ <-; subst.
  - intros Hk Hv. now rewrite IH.
Qed.

Lemma truthy_str_not_video (ty : value) :
  ty <> VStr "video" -> strict_eq ty (VStr "video") = false.
Proof.
  intros H. destruct (strict_eq ty (VStr "video")) eqn:E; [|reflexivity].
  now apply strict_eq_true in E.
Qed.

(** X6: what the normalization guarantees: every property of the row other
    than title, content, metadata, created_at, updated_at and videos is
    copied unchanged; metadata is always truthy; title and content are truthy
    or the empty string; on a video row, videos is truthy or null (never
    undefined), and on any other row it is left as the row has it. *)
Theorem normalization_contract (clk : clock_reads) (r : obj) :
  (forall k, ~ In k normalized_keys ->
             lookup k (transformPayload clk r) = lookup k r) /\
  truthy (lookup "metadata" (transformPayload clk r)) = true /\
  (truthy (lookup "title" (transformPayload clk r)) = true \/
   lookup "title" (transformPayload clk r) = VStr "") /\
  (truthy (lookup "content" (transformPayload clk r)) = true \/
   lookup "content" (transformPayload clk r) = VStr "") /\
  (item_type r = VStr "video" ->
   truthy (lookup "videos" (transformPayload clk r)) = true \/
   lookup "videos" (transformPayload clk r) = VNull) /\
  (item_type r <> VStr "video" ->
   lookup "videos" (transformPayload clk r) = lookup "videos" r).
Proof.
  assert (Hbase : forall k, ~ In k normalized_keys ->
                            lookup k (baseItem clk r) = lookup k r).
  { intros k Hk. unfold baseItem.
    rewrite !lookup_set_other; [reflexivity| | | | |];
      intros ->; apply Hk; simpl; tauto. }
  assert (Hvid : lookup "videos" (baseItem clk r) = lookup "videos" r)
    by (unfold baseItem; now lookups).
  unfold transformPayload, with_videos.
  destruct (strict_eq (item_type r) (VStr "video")) eqn:E.
  - repeat split.
    + intros k Hk. rewrite lookup_set_other; [now apply Hbase|].
      intros ->. apply Hk. simpl. tauto.
    + unfold baseItem. lookups.
      destruct (or_else_cases (get_opt (lookup "data" r) "metadata")
                              (VObj [])) as [H|H]; [exact H | now rewrite H].
    + unfold baseItem. lookups. apply or_else_cases.
    + unfold baseItem. lookups. apply or_else_cases.
    + intros _. rewrite lookup_set_same. apply or_else_cases.
    + intros H. apply truthy_str_not_video in H. congruence.
  - repeat split.
    + exact Hbase.
    + unfold baseItem. lookups.
      destruct (or_else_cases (get_opt (lookup "data" r) "metadata")
                              (VObj [])) as [H|H]; [exact H | now rewrite H].
    + unfold baseItem. lookups. apply or_else_cases.
    + unfold baseItem. lookups. apply or_else_cases.
    + intros H. rewrite H in E. discriminate E.
    + intros _. exact Hvid.
Qed.

Lemma normalization_contract_witness :
  lookup "paper_id" (transformPayload (at_time "T1") (row "i2" "video")) =
    VStr "P1" /\
  (truthy (lookup "videos" (transformPayload (at_time "T1") (row "i2" "video")))
     = true \/
   lookup "videos" (transformPayload (at_time "T1") (row "i2" "video")) = VNull)
  /\
  lookup "videos" (transformPayload (at_time "T1") (row "i1" "quiz")) =
    VUndefined.
Proof.
  split; [|split].
  - apply (proj1 (normalization_contract (at_time "T1") (row "i2" "video"))).
    simpl. intros H.
    repeat (destruct H as [H|H]; [discriminate H|]). exact H.
  - apply (proj1 (proj2 (proj2 (proj2 (proj2
             (normalization_contract (at_time "T1") (row "i2" "video"))))))).
    reflexivity.
  - apply (proj2 (proj2 (proj2 (proj2 (proj2
             (normalization_contract (at_time "T1") (row "i1" "quiz"))))))).
    discriminate.
Defined.

Lemma baseItem_normal (clk : clock_reads) (r : obj) :
  normal clk (baseItem clk r).
Proof.
  unfold normal, baseItem. repeat split;
    rewrite ?has_key_set; lookups;
    rewrite ?or_else_idem; try reflexivity;
    rewrite ?String.eqb_refl, ?orb_true_r; reflexivity.
Qed.

Lemma with_videos_normal (clk : clock_reads) (r b : obj) :
  normal clk b -> normal clk (with_videos r b).
Proof.
  unfold normal, with_videos.
  intros ((H1 & H2 & H3 & H4 & H5) & E1 & E2 & E3 & E4 & E5).
  repeat split; rewrite ?has_key_set; lookups;
    rewrite ?H1, ?H2, ?H3, ?H4, ?H5, ?orb_true_r; auto.
Qed.

Lemma baseItem_fixed (clk : clock_reads) (t : obj) :
  normal clk t -> baseItem clk t = t.
Proof.
  intros ((H1 & H2 & H3 & H4 & H5) & E1 & E2 & E3 & E4 & E5).
  unfold baseItem.
  rewrite (set_present "title" _ t H1 E1).
  rewrite (set_present "content" _ t H2 E2).
  rewrite (set_present "metadata" _ t H3 E3).
  rewrite (set_present "created_at" _ t H4 E4).
  now rewrite (set_present "updated_at" _ t H5 E5).
Qed.

(** X7: the normalization is idempotent: transforming an item that is
    already transformed, with the same clock values, gives it back.  So a
    record of the state delivered again as a payload is stored unchanged. *)
Theorem transformPayload_idempotent (clk : clock_reads) (r : obj) :
  transformPayload clk (transformPayload clk r) = transformPayload clk r.
Proof.
  unfold transformPayload at 1. rewrite transformPayload_type.
  unfold transformPayload.
  destruct (strict_eq (item_type r) (VStr "video")) eqn:E.
  - rewrite (baseItem_fixed clk (with_videos r (baseItem clk r)))
      by (apply with_videos_normal, baseItem_normal).
    unfold with_videos at 1. apply set_present.
    + unfold with_videos. rewrite has_key_set. reflexivity.
    + unfold with_videos. lookups.
      set (rv := lookup "videos" r).
      set (mv := get_opt (lookup "metadata" (baseItem clk r)) "videos").
      unfold or_else.
      destruct (truthy rv) eqn:Hr; [now rewrite !Hr|].
      destruct (truthy mv) eqn:Hm; [now rewrite !Hm|].
      simpl. now rewrite Hm.
  - apply baseItem_fixed, baseItem_normal.
Qed.

End TransformExtras.

(** ** The hooks as state machines: more properties *)

Module HookExtras.

Import ItemsSpec ItemsFacts ExtraSpec Samples.

Lemma error_switch ty f s :
  Items.error (Items.switch_bucket ty f s) = Items.error s.
Proof.
  unfold Items.switch_bucket.
  now destruct (Items.bucket_of ty) as [[]|].
Qed.

Lemma error_apply s n : Items.error (Items.apply s n) = Items.error s.
Proof.
  destruct n; simpl; unfold Items.onInsert, Items.onUpdate, Items.onDelete;
    now rewrite error_switch.
Qed.

Lemma notified (id : string) (ns : list Items.notification) :
  forall h, Items.channel h = Some id ->
    Items.inflight (Items.steps h (map (Items.Notify id) ns)) =
      Items.inflight h /\
    Items.st (Items.steps h (map (Items.Notify id) ns)) =
      Items.run (Items.st h) ns.
Proof.
  induction ns as [|n ns IH]; intros h Hc; [split; reflexivity|].
  change (Items.steps h (map (Items.Notify id) (n :: ns)))
    with (Items.steps (Items.step h (Items.Notify id n))
                      (map (Items.Notify id) ns)).
  assert (Hs : Items.step h (Items.Notify id n) =
               {| Items.deps := Items.deps h;
                  Items.st := Items.apply (Items.st h) n;
                  Items.channel := Items.channel h;
                  Items.inflight := Items.inflight h |}).
  { simpl. now rewrite Hc, String.eqb_refl. }
  set (h1 := Items.step h (Items.Notify id n)) in *.
  assert (Hc1 : Items.channel h1 = Some id) by now rewrite Hs.
  destruct (IH h1 Hc1) as [Hi Hst]. rewrite Hi, Hst, Hs. now split.
Qed.

Lemma error_run ns : forall s, Items.error (Items.run s ns) = Items.error s.
Proof.
  induction ns as [|n ns IH]; intros s; [reflexivity|].
  change (Items.run s (n :: ns)) with (Items.run (Items.apply s n) ns).
  now rewrite IH, error_apply.
Qed.

(** X8: the subscription is live before the first answer arrives, and the
    answer replaces the lists: whatever notifications were handled between
    the mount and the answer, the state after the answer is the state of a
    plain initial load, so the items they inserted are lost unless the answer
    holds them. *)
Theorem answer_discards_earlier_notifications
    (id : string) (ns : list Items.notification)
    (clk : nat -> Items.clock_reads) (rows : list obj) :
  id <> "" ->
  Items.st
    (Items.step
       (Items.steps (Items.step Items.mount (Items.Render id))
                    (map (Items.Notify id) ns))
       (Items.FetchOk id clk (Some rows))) =
  Items.onFetched clk (Some rows) Items.initial.
Proof.
  intros Hid. apply String.eqb_neq in Hid.
  set (h0 := Items.step Items.mount (Items.Render id)).
  assert (Hc : Items.channel h0 = Some id) by (subst h0; simpl; now rewrite Hid).
  destruct (notified id ns h0 Hc) as [Hi Hst].
  assert (Hin : Items.inflight h0 = [id]) by (subst h0; simpl; now rewrite Hid).
  assert (Hst0 : Items.st h0 = Items.setIsLoading true Items.initial)
    by (subst h0; simpl; now rewrite Hid).
  unfold Items.step at 1. rewrite Hi, Hin. simpl Items.awaiting.
  rewrite String.eqb_refl. simpl. rewrite Hst, Hst0.
  unfold Items.onFetched. now rewrite error_run.
Qed.

Lemma answer_discards_earlier_notifications_witness :
  Items.st
    (Items.step
       (Items.steps (Items.step Items.mount (Items.Render "P1"))
                    (map (Items.Notify "P1")
                         [Items.INSERT (at_time "T1") (row "i9" "quiz")]))
       (Items.FetchOk "P1" (fun _ => at_time "T0")
                      (Some [row "i1" "quiz"; row "i2" "video"]))) = loaded.
Proof.
  apply (answer_discards_earlier_notifications "P1"
           [Items.INSERT (at_time "T1") (row "i9" "quiz")]
           (fun _ => at_time "T0") [row "i1" "quiz"; row "i2" "video"]).
  discriminate.
Defined.

Lemma filter_sizes (l : list obj) :
  List.length l =
  List.length (filter (in_bucket Items.Video) l) +
  List.length (filter (in_bucket Items.Quiz) l) +
  List.length (filter (in_bucket Items.Flashcard) l) +
  List.length (filter (in_bucket Items.Concepts) l) +
  List.length (filter (in_bucket Items.Methodology) l) +
  List.length (filter (in_bucket Items.Results) l) +
  List.length (filter no_bucket l).
Proof.
  induction l as [|a l IH]; [reflexivity|].
  cbn [filter]. rewrite !in_bucket_same.
  replace (no_bucket a)
    with (same_bucket (Items.bucket_of (Items.item_type a)) None)
    by (unfold no_bucket; now destruct (Items.bucket_of _)).
  destruct (Items.bucket_of (Items.item_type a)) as [[]|];
    cbn [same_bucket bucket_eqb List.length]; lia.
Qed.

(** X9: in a consistent state (so after the initial load and along the runs
    of C1) the sizes add up: the full list has as many items as the six
    lists together plus the items whose tag selects no list. *)
Theorem sizes_add_up (s : Items.state) :
  consistent s ->
  List.length (Items.learningItems s) =
  List.length (Items.videoItems s) + List.length (Items.quizItems s) +
  List.length (Items.flashcardItems s) +
  List.length (Items.keyConceptsItems s) +
  List.length (Items.methodologyItems s) +
  List.length (Items.resultsItems s) +
  List.length (filter no_bucket (Items.learningItems s)).
Proof.
  intros H. rewrite (filter_sizes (Items.learningItems s)) at 1.
  now rewrite <- (H Items.Video), <- (H Items.Quiz), <- (H Items.Flashcard),
    <- (H Items.Concepts), <- (H Items.Methodology), <- (H Items.Results).
Qed.

Lemma sizes_add_up_witness :
  List.length (Items.learningItems loaded) =
  List.length (Items.videoItems loaded) + List.length (Items.quizItems loaded) +
  List.length (Items.flashcardItems loaded) +
  List.length (Items.keyConceptsItems loaded) +
  List.length (Items.methodologyItems loaded) +
  List.length (Items.resultsItems loaded) +
  List.length (filter no_bucket (Items.learningItems loaded)).
Proof.
  apply (sizes_add_up loaded). apply onFetched_consistent.
Defined.

Lemma paper_error_step (h : Paper.hook) (e : Paper.event) :
  Paper.error h <> None -> Paper.error (Paper.step h e) <> None.
Proof.
  intros H. destruct e as [id|req data|req msg|chan new]; simpl.
  - destruct (match Paper.deps h with
              | Some d => String.eqb d id | None => false end); [exact H|].
    now destruct (String.eqb id "").
  - now destruct (Items.awaiting req (Paper.inflight h)).
  - destruct (Items.awaiting req (Paper.inflight h)); [discriminate | exact H].
  - destruct (Paper.channel h) as [[c closed]|]; [|exact H].
    now destruct (String.eqb c chan).
Qed.

Lemma items_error_step (h : Items.hook) (e : Items.event) :
  Items.error (Items.st h) <> None ->
  Items.error (Items.st (Items.step h e)) <> None.
Proof.
  intros H. destruct e as [id|req clk data|req msg|chan n]; simpl.
  - destruct (match Items.deps h with
              | Some d => String.eqb d id | None => false end); [exact H|].
    now destruct (String.eqb id "").
  - destruct (Items.awaiting req (Items.inflight h)); [|exact H].
    now destruct data.
  - destruct (Items.awaiting req (Items.inflight h)); [discriminate | exact H].
  - destruct (Items.channel h) as [c|]; [|exact H].
    destruct (String.eqb c chan); [|exact H]. simpl. now rewrite error_apply.
Qed.

(** X11: the error state is never cleared: once a fetch has failed, [error]
    stays set whatever happens next, a later successful fetch and a change of
    identifier included, in both hooks. *)
Theorem error_is_never_cleared :
  (forall (es : list Paper.event) (h : Paper.hook),
      Paper.error h <> None -> Paper.error (Paper.steps h es) <> None) /\
  (forall (es : list Items.event) (h : Items.hook),
      Items.error (Items.st h) <> None ->
      Items.error (Items.st (Items.steps h es)) <> None).
Proof.
  split.
  - induction es as [|e es IH]; intros h H; [exact H|].
    apply (IH (Paper.step h e)). now apply paper_error_step.
  - induction es as [|e es IH]; intros h H; [exact H|].
    apply (IH (Items.step h e)). now apply items_error_step.
Qed.

Lemma error_is_never_cleared_witness :
  Paper.error
    (Paper.steps
       (Paper.steps Paper.mount [Paper.Render "A"; Paper.FetchErr "A" "offline"])
       [Paper.Render "B"; Paper.FetchOk "B" paperB]) <> None.
Proof.
  apply (proj1 error_is_never_cleared
           [Paper.Render "B"; Paper.FetchOk "B" paperB]
           (Paper.steps Paper.mount
              [Paper.Render "A"; Paper.FetchErr "A" "offline"])).
  discriminate.
Defined.

(** The state of the first subscription of a hook, after its answer. *)
Lemma first_subscription_invariant (id : string) (ups : list (string * obj)) :
  forall h url,
    Paper.channel h = Some (id, VNull) ->
    Paper.pdf_url h = url -> Paper.paper h <> None ->
    Paper.pdf_url (Paper.steps h (updates ups)) = url.
Proof.
  induction ups as [|[chan new] ups IH]; intros h url Hc Hu Hp; [exact Hu|].
  change (Paper.steps h (updates ((chan, new) :: ups)))
    with (Paper.steps (Paper.step h (Paper.Update chan new)) (updates ups)).
  destruct (Paper.paper h) as [cur|] eqn:Ecur; [|now elim Hp].
  destruct (String.eqb id chan) eqn:E.
  - apply String.eqb_eq in E. subst chan.
    destruct (PaperClaims.update_keeps_url_when_closure_falsy
                h id VNull cur new Hc eq_refl Ecur) as [Hk (m & Hm & _)].
    apply IH.
    + simpl. now rewrite Hc, String.eqb_refl.
    + now rewrite Hk.
    + now rewrite Hm.
  - assert (Hs : Paper.step h (Paper.Update chan new) = h)
      by (simpl; now rewrite Hc, E).
    rewrite Hs. apply IH; [exact Hc | exact Hu | now rewrite Ecur].
Qed.

(** X12: on the first identifier that a hook tracks, the document URL of the
    snapshot stays the one resolved by the fetch across any sequence of
    UPDATE notifications, whatever [pdf_url] they carry. *)
Theorem first_identifier_url_is_kept
    (id : string) (data : obj) (ups : list (string * obj)) :
  id <> "" ->
  Paper.pdf_url
    (Paper.steps (Paper.steps Paper.mount
                    [Paper.Render id; Paper.FetchOk id data])
                 (updates ups)) =
  Paper.resolvePdfUrl data.
Proof.
  intros Hid. apply String.eqb_neq in Hid.
  apply (first_subscription_invariant id ups).
  - simpl. rewrite Hid. simpl. now rewrite String.eqb_refl.
  - unfold Paper.pdf_url. simpl. rewrite Hid. simpl.
    rewrite String.eqb_refl. simpl. apply lookup_set_same.
  - simpl. rewrite Hid. simpl. now rewrite String.eqb_refl.
Qed.

Lemma first_identifier_url_is_kept_witness :
  Paper.pdf_url
    (Paper.steps (Paper.steps Paper.mount
                    [Paper.Render "B"; Paper.FetchOk "B" paperB])
                 (updates [("B", updateB); ("B", paperB_without_url)])) =
  Paper.resolvePdfUrl paperB.
Proof.
  apply (first_identifier_url_is_kept "B" paperB
           [("B", updateB); ("B", paperB_without_url)]).
  discriminate.
Defined.

Lemma paper_none_step (h : Paper.hook) (e : Paper.event) :
  is_answer e = false -> Paper.paper h = None ->
  Paper.paper (Paper.step h e) = None.
Proof.
  intros He H. destruct e as [id|req data|req msg|chan new]; simpl.
  - destruct (match Paper.deps h with
              | Some d => String.eqb d id | None => false end); [exact H|].
    now destruct (String.eqb id "").
  - discriminate He.
  - now destruct (Items.awaiting req (Paper.inflight h)).
  - destruct (Paper.channel h) as [[c closed]|]; [|exact H].
    destruct (String.eqb c chan); [|exact H]. simpl. now rewrite H.
Qed.

(** X13: the snapshot stays null until a fetch is answered: renders, failed
    fetches and UPDATE notifications never create it, so an UPDATE that
    arrives before the first answer is dropped. *)
Theorem no_snapshot_before_answer (es : list Paper.event) :
  forallb (fun e => negb (is_answer e)) es = true ->
  Paper.paper (Paper.steps Paper.mount es) = None.
Proof.
  assert (G : forall h, Paper.paper h = None ->
                forallb (fun e => negb (is_answer e)) es = true ->
                Paper.paper (Paper.steps h es) = None).
  { induction es as [|e es IH]; intros h Hp H; [exact Hp|].
    simpl in H. apply andb_true_iff in H as [He H].
    apply negb_true_iff in He.
    apply (IH (Paper.step h e)); [now apply paper_none_step | exact H]. }
  now apply G.
Qed.

Lemma no_snapshot_before_answer_witness :
  Paper.paper
    (Paper.steps Paper.mount
       [Paper.Render "B"; Paper.Update "B" updateB;
        Paper.FetchErr "B" "offline"; Paper.Update "B" updateB]) = None.
Proof.
  apply (no_snapshot_before_answer
           [Paper.Render "B"; Paper.Update "B" updateB;
            Paper.FetchErr "B" "offline"; Paper.Update "B" updateB]).
  reflexivity.
Defined.

(** X14: an UPDATE notification replaces the snapshot, it does not merge
    into it: every field but [pdf_url] is read from the payload, so a field
    of the previous snapshot that the payload lacks is undefined afterwards;
    [pdf_url] is the callback's [initialPdfUrl] when truthy, else the
    previous snapshot's. *)
Theorem update_replaces_snapshot
    (h : Paper.hook) (chan : string) (closed : value) (cur new : obj) :
  Paper.channel h = Some (chan, closed) ->
  Paper.paper h = Some cur ->
  exists merged,
    Paper.paper (Paper.step h (Paper.Update chan new)) = Some merged /\
    (forall k, k <> "pdf_url" -> lookup k merged = lookup k new) /\
    (forall k, k <> "pdf_url" -> lookup k new = VUndefined ->
               lookup k merged = VUndefined) /\
    lookup "pdf_url" merged = or_else closed (lookup "pdf_url" cur).
Proof.
  intros Hc Hp. simpl. rewrite Hc, String.eqb_refl. simpl. rewrite Hp. simpl.
  eexists. split; [reflexivity|]. repeat split.
  - intros k Hk. now apply lookup_set_other.
  - intros k Hk Hn. now rewrite lookup_set_other.
  - apply lookup_set_same.
Qed.

Lemma update_replaces_snapshot_witness :
  let h := Paper.steps Paper.mount [Paper.Render "B"; Paper.FetchOk "B" paperB] in
  exists merged,
    Paper.paper (Paper.step h (Paper.Update "B" [("id", VStr "B")])) =
      Some merged /\
    (forall k, k <> "pdf_url" ->
               lookup k merged = lookup k [("id", VStr "B")]) /\
    (forall k, k <> "pdf_url" -> lookup k [("id", VStr "B")] = VUndefined ->
               lookup k merged = VUndefined) /\
    lookup "pdf_url" merged = or_else VNull (lookup "pdf_url"
                                (set "pdf_url" (Paper.resolvePdfUrl paperB) paperB)).
Proof.
  apply (update_replaces_snapshot
           (Paper.steps Paper.mount [Paper.Render "B"; Paper.FetchOk "B" paperB])
           "B" VNull (set "pdf_url" (Paper.resolvePdfUrl paperB) paperB)
           [("id", VStr "B")]); reflexivity.
Defined.

End HookExtras.

(** ** Video descriptors: aggregation, completion and navigation *)

Module VideoExtras.

Import Videos VideoPlayer MoreSamples.

Lemma extractItem_well_shaped (acc : list obj) (videoItem : obj) :
  well_shaped videoItem = true ->
  extractItem acc videoItem = Ok (acc ++ descriptors_of videoItem).
Proof.
  unfold well_shaped, descriptors_of, extractItem.
  destruct (locate videoItem) as [[]|]; try discriminate. reflexivity.
Qed.

Lemma extractItem_malformed (acc : list obj) (videoItem : obj) :
  well_shaped videoItem = false -> exists m, extractItem acc videoItem = Throw m.
Proof.
  unfold well_shaped, extractItem.
  destruct (locate videoItem) as [[]|]; try discriminate; simpl; eauto.
Qed.

Lemma descriptors_of_tagged (videoItem d : obj) :
  In d (descriptors_of videoItem) ->
  lookup "itemId" d = lookup "id" videoItem.
Proof.
  unfold descriptors_of.
  destruct (locate videoItem) as [[]|]; try easy.
  intros H. apply in_map_iff in H as (video & <- & _).
  apply lookup_set_same.
Qed.

(** X15: the descriptors of all the video items form one flat sequence, in
    item order and, within an item, in payload order; each carries the
    identifier of an item of the list.  This holds when every item's payload
    is an array (as it always is, but for a non-array under
    [data.videos]). *)
Theorem extraction_is_flat_and_ordered (acc : list obj) (videoItems : list obj) :
  forallb well_shaped videoItems = true ->
  extractAll acc videoItems = Ok (acc ++ flat_map descriptors_of videoItems) /\
  forall d, In d (flat_map descriptors_of videoItems) ->
            exists videoItem, In videoItem videoItems /\
                              lookup "itemId" d = lookup "id" videoItem.
Proof.
  intros H. split.
  - revert acc. induction videoItems as [|a rest IH]; intros acc; simpl.
    + now rewrite app_nil_r.
    + simpl in H. apply andb_true_iff in H as [Ha Hr].
      rewrite (extractItem_well_shaped acc a Ha). simpl.
      rewrite (IH Hr). now rewrite <- app_assoc.
  - intros d Hd. apply in_flat_map in Hd as (item & Hi & Hd).
    exists item. split; [exact Hi | now apply descriptors_of_tagged].
Qed.

Lemma extraction_is_flat_and_ordered_witness :
  extractAll [] [item_i9; item_data_videos] =
    Ok ([] ++ flat_map descriptors_of [item_i9; item_data_videos]) /\
  forall d, In d (flat_map descriptors_of [item_i9; item_data_videos]) ->
            exists videoItem, In videoItem [item_i9; item_data_videos] /\
                              lookup "itemId" d = lookup "id" videoItem.
Proof.
  apply (extraction_is_flat_and_ordered [] [item_i9; item_data_videos]).
  reflexivity.
Defined.

Lemma extractAll_aborts (videoItems : list obj) (videoItem : obj) :
  In videoItem videoItems -> well_shaped videoItem = false ->
  forall acc, exists m, extractAll acc videoItems = Throw m.
Proof.
  intros Hin Hw. induction videoItems as [|a rest IH]; [easy|].
  intros acc. simpl. destruct Hin as [->|Hin].
  - destruct (extractItem_malformed acc videoItem Hw) as [m Hm].
    rewrite Hm. simpl. eauto.
  - destruct (extractItem acc a) as [acc'|m]; simpl; [now apply IH | eauto].
Qed.

(** X16: one malformed item empties the step: when some video item has a
    non-array payload, the extraction effect throws, whatever the other items
    are, and no descriptor of any item is stored. *)
Theorem malformed_item_aborts_extraction
    (videoItems allVideos : list obj) (videoItem : obj) :
  In videoItem videoItems -> well_shaped videoItem = false ->
  exists m, extractEffect videoItems allVideos = Throw m.
Proof.
  intros Hin Hw. unfold extractEffect.
  destruct videoItems as [|a rest] eqn:E; [easy|].
  rewrite <- E in *. now apply (extractAll_aborts videoItems videoItem).
Qed.

Lemma malformed_item_aborts_extraction_witness :
  exists m, extractEffect [item_i9; item_data_videos_single; item_data_videos]
                          [] = Throw m.
Proof.
  apply (malformed_item_aborts_extraction
           [item_i9; item_data_videos_single; item_data_videos] []
           item_data_videos_single).
  - right. left. reflexivity.
  - reflexivity.
Defined.

Lemma extractAll_tagged (videoItems : list obj) :
  forall acc vids,
    extractAll acc videoItems = Ok vids ->
    forall d, In d vids ->
      In d acc \/
      exists videoItem, In videoItem videoItems /\
                        lookup "itemId" d = lookup "id" videoItem.
Proof.
  induction videoItems as [|a rest IH]; intros acc vids H d Hd; simpl in H.
  - injection H as <-. now left.
  - unfold extractItem in H.
    destruct (locate a) as [videos|m]; [|discriminate]. simpl in H.
    destruct videos as [| | | | |l|]; try discriminate. simpl in H.
    destruct (IH _ _ H d Hd) as [Hacc|(item & Hi & Ht)].
    + apply in_app_or in Hacc as [Hacc|Hnew]; [now left|right].
      exists a. split; [now left|].
      apply in_map_iff in Hnew as (video & <- & _). apply lookup_set_same.
    + right. exists item. split; [now right | exact Ht].
Qed.

(** X17: completion is tracked per owning item: all the descriptors of one
    item have the same completion flag, and when the identifier of every
    video item is in [completedItemIds], every extracted descriptor counts as
    completed. *)
Theorem completion_is_per_item :
  (forall (videoItem : obj) (l : list value) (d1 d2 : obj) (ids : list value),
      In d1 (map (descriptor videoItem) l) ->
      In d2 (map (descriptor videoItem) l) ->
      includes ids (lookup "itemId" d1) = includes ids (lookup "itemId" d2)) /\
  (forall (videoItems vids : list obj) (ids : list value),
      extractAll [] videoItems = Ok vids ->
      (forall videoItem, In videoItem videoItems ->
                         includes ids (lookup "id" videoItem) = true) ->
      allVideosCompleted vids ids = true).
Proof.
  split.
  - intros videoItem l d1 d2 ids H1 H2.
    apply in_map_iff in H1 as (v1 & <- & _).
    apply in_map_iff in H2 as (v2 & <- & _).
    unfold descriptor. now rewrite !lookup_set_same.
  - intros videoItems vids ids H Hall. unfold allVideosCompleted.
    apply forallb_forall. intros d Hd.
    destruct (extractAll_tagged videoItems [] vids H d Hd)
      as [[]|(item & Hi & Ht)].
    rewrite Ht. now apply Hall.
Qed.

Lemma completion_is_per_item_witness :
  allVideosCompleted
    [[("video_id", VStr "abc"); ("itemId", VStr "i9")];
     [("video_id", VStr "abc"); ("itemId", VStr "i7")]]
    [VStr "i7"; VStr "i9"] = true.
Proof.
  apply (proj2 completion_is_per_item [item_i9; item_data_videos]
           [[("video_id", VStr "abc"); ("itemId", VStr "i9")];
            [("video_id", VStr "abc"); ("itemId", VStr "i7")]]
           [VStr "i7"; VStr "i9"]).
  - reflexivity.
  - intros videoItem [<-|[<-|[]]]; reflexivity.
Defined.

(** X18: a previous or next callback of the current render (its index is
    the latest state) keeps the index inside the list of videos: next does
    nothing on the last video, previous nothing on the first, and previous
    undoes next anywhere else.  A stale callback does not: created on a
    render before the last video and run when the state is on the last
    video, next moves the index past the end. *)
Theorem video_navigation_range (allVideos : list obj) (render latest : Z) :
  (0 <= latest < Z.of_nat (List.length allVideos))%Z ->
  (render = latest ->
   (0 <= goToNextVideo allVideos render latest
      < Z.of_nat (List.length allVideos))%Z /\
   (0 <= goToPrevVideo render latest < Z.of_nat (List.length allVideos))%Z /\
   (latest = Z.of_nat (List.length allVideos) - 1 ->
    goToNextVideo allVideos render latest = latest)%Z /\
   (latest = 0 -> goToPrevVideo render latest = latest)%Z /\
   (latest < Z.of_nat (List.length allVideos) - 1 ->
    goToPrevVideo (goToNextVideo allVideos render latest)
                  (goToNextVideo allVideos render latest) = latest)%Z) /\
  (render < Z.of_nat (List.length allVideos) - 1 ->
   latest = Z.of_nat (List.length allVideos) - 1 ->
   goToNextVideo allVideos render latest =
   Z.of_nat (List.length allVideos))%Z.
Proof.
  intros H. unfold goToNextVideo, goToPrevVideo. split.
  - intros ->.
    destruct (Z.ltb_spec latest (Z.of_nat (List.length allVideos) - 1));
      destruct (Z.gtb_spec latest 0);
      repeat split; try lia;
      intros; try lia;
      destruct (Z.gtb_spec (latest + 1) 0); lia.
  - intros Hr ->.
    destruct (Z.ltb_spec render (Z.of_nat (List.length allVideos) - 1)); lia.
Qed.

Lemma video_navigation_range_witness :
  (0 <= goToNextVideo [item_i9; item_i9; item_i9] 1 1 < 3)%Z /\
  goToNextVideo [item_i9; item_i9] 0 1 = 2%Z.
Proof.
  split.
  - apply (proj1 (video_navigation_range [item_i9; item_i9; item_i9] 1 1
                    ltac:(simpl; lia)) eq_refl).
  - apply (proj2 (video_navigation_range [item_i9; item_i9] 0 1
                    ltac:(simpl; lia))); reflexivity.
Defined.

End VideoExtras.

(** ** Step filtering: the map back, errors and the focused position *)

Module JourneyExtras.

Import Journey JourneySpec JourneyNav MoreSamples.

Lemma combine_snoc (A B : Type) (a : list A) (b : list B) (x : A) (y : B) :
  List.length a = List.length b ->
  combine (a ++ [x]) (b ++ [y]) = combine a b ++ [(x, y)].
Proof.
  revert b. induction a as [|a0 a IH]; intros [|b0 b] H; try discriminate.
  - reflexivity.
  - simpl. rewrite IH; [reflexivity | now injection H].
Qed.

Lemma push_maps_back steps indices acc step index :
  maps_back steps indices acc ->
  nth_error steps index = Some step ->
  maps_back steps (indices ++ [index]) (push acc step index).
Proof.
  intros [Hf Hs] Hn. unfold maps_back, push. simpl. split.
  - rewrite !map_app, Hf. simpl. now rewrite Hn.
  - assert (Hl : List.length (fst acc) = List.length indices).
    { apply (f_equal (@List.length _)) in Hf.
      now rewrite !length_map in Hf. }
    rewrite Hs, Hl, length_app. cbn [List.length].
    rewrite Nat.add_1_r, seq_S. cbn [Nat.add].
    rewrite combine_snoc; [reflexivity | apply length_seq].
Qed.

Lemma identityMap_combine (steps : list node) :
  forall k, identityMap k steps =
            combine (seq k (List.length steps)) (seq k (List.length steps)).
Proof.
  induction steps as [|a steps IH]; intros k; simpl; [reflexivity|].
  now rewrite IH.
Qed.

Lemma nth_error_seq (l : list node) :
  forall pre,
    map (nth_error (pre ++ l)) (seq (List.length pre) (List.length l)) =
    map Some l.
Proof.
  induction l as [|a l IH]; intros pre; simpl; [reflexivity|].
  rewrite nth_error_app2 by lia. rewrite Nat.sub_diag. simpl. f_equal.
  specialize (IH (pre ++ [a])).
  rewrite <- app_assoc, length_app in IH. simpl in IH.
  now rewrite Nat.add_1_r in IH.
Qed.

Lemma entry_index (step : node) (index : nat) (e : readingStep) :
  entry step index = Some e -> rs_step e = step /\ rs_index e = index.
Proof.
  unfold entry. destruct (classify step) as [[ty o]|m]; [|discriminate].
  destruct (is_reading_type ty); [|discriminate]. now intros [= <-].
Qed.

Lemma entries_index (rest : list node) :
  forall pre e,
    In e (entries (List.length pre) rest) ->
    nth_error (pre ++ rest) (rs_index e) = Some (rs_step e).
Proof.
  induction rest as [|a rest IH]; intros pre e; simpl; [easy|].
  assert (Hrest : In e (entries (S (List.length pre)) rest) ->
                  nth_error (pre ++ a :: rest) (rs_index e) = Some (rs_step e)).
  { intros H. specialize (IH (pre ++ [a]) e).
    rewrite <- app_assoc, length_app in IH. simpl in IH.
    rewrite Nat.add_1_r in IH. now apply IH. }
  destruct (entry a (List.length pre)) as [e0|] eqn:E; [|exact Hrest].
  intros [<-|H]; [|now apply Hrest].
  apply entry_index in E as [-> ->].
  rewrite nth_error_app2 by lia. now rewrite Nat.sub_diag.
Qed.

Lemma insert_In (a e : readingStep) (l : list readingStep) :
  In e (insert a l) -> e = a \/ In e l.
Proof.
  induction l as [|b l IH]; simpl; [intuition|].
  destruct (Nat.leb (rs_order a) (rs_order b)); simpl; intuition.
Qed.

Lemma sort_In (e : readingStep) (l : list readingStep) :
  In e (sort l) -> In e l.
Proof.
  induction l as [|a l IH]; simpl; [easy|].
  intros H. apply insert_In in H as [->|H]; auto.
Qed.

Lemma fold_push_maps_back steps (l : list readingStep) :
  forall acc indices,
    maps_back steps indices acc ->
    (forall e, In e l -> nth_error steps (rs_index e) = Some (rs_step e)) ->
    maps_back steps (indices ++ map rs_index l)
      (fold_left (fun acc item => push acc (rs_step item) (rs_index item))
                 l acc).
Proof.
  induction l as [|a l IH]; intros acc indices H Hl; simpl.
  - now rewrite app_nil_r.
  - replace (indices ++ rs_index a :: map rs_index l)
      with ((indices ++ [rs_index a]) ++ map rs_index l)
      by now rewrite <- app_assoc.
    apply IH; [|intros e He; apply Hl; now right].
    apply push_maps_back; [exact H | apply Hl; now left].
Qed.

Lemma selectAll_maps_back (f : ContentType) (rest : list node) :
  forall pre acc indices,
    maps_back (pre ++ rest) indices acc ->
    forallb is_element rest = true ->
    exists acc' indices',
      selectAll f acc (List.length pre) rest = Ok acc' /\
      maps_back (pre ++ rest) indices' acc'.
Proof.
  induction rest as [|a rest IH]; intros pre acc indices H He; simpl.
  - eauto.
  - simpl in He. apply andb_true_iff in He as [Ha Hr].
    rewrite (JourneyClaims.selected_element f a Ha). simpl.
    replace (S (List.length pre)) with (List.length (pre ++ [a]))
      by (rewrite length_app; simpl; lia).
    replace (pre ++ a :: rest) with ((pre ++ [a]) ++ rest) in *
      by now rewrite <- app_assoc.
    destruct (keeps f a).
    + apply (IH (pre ++ [a]) _ (indices ++ [List.length pre])); [|exact Hr].
      apply push_maps_back; [exact H|].
      rewrite <- app_assoc. simpl.
      rewrite nth_error_app2 by lia. now rewrite Nat.sub_diag.
    + now apply (IH (pre ++ [a]) _ indices).
Qed.

(** X19: [stepMap] maps back to the original positions: there is a list of
    original indices such that the k-th filtered step is the step at the k-th
    index, and [stepMap] pairs each position k with that index.  This holds
    for the reading and "all" filters on any list, and for the other filters
    on a list of elements. *)
Theorem step_map_points_back (f : ContentType) (steps : list node) (c : nat) :
  f = reading \/ f = all \/ forallb is_element steps = true ->
  exists v indices,
    filterEffect f steps c = Ok v /\
    map Some (filteredSteps v) = map (nth_error steps) indices /\
    stepMap v = combine (seq 0 (List.length indices)) indices.
Proof.
  assert (Hread : exists v indices,
             filterEffect reading steps c = Ok v /\
             map Some (filteredSteps v) = map (nth_error steps) indices /\
             stepMap v = combine (seq 0 (List.length indices)) indices).
  { eexists. exists (map rs_index (sort (collectAll [] 0 steps))).
    split; [reflexivity|].
    apply (fold_push_maps_back steps _ ([], []) []); [split; reflexivity|].
    intros e He. apply sort_In in He.
    rewrite JourneyClaims.collectAll_entries in He. simpl in He.
    now apply (entries_index steps []). }
  assert (Hall : exists v indices,
             filterEffect all steps c = Ok v /\
             map Some (filteredSteps v) = map (nth_error steps) indices /\
             stepMap v = combine (seq 0 (List.length indices)) indices).
  { eexists. exists (seq 0 (List.length steps)).
    split; [reflexivity|]. simpl. split.
    - symmetry. apply (nth_error_seq steps []).
    - rewrite length_seq. apply identityMap_combine. }
  intros [->|[->|He]]; [exact Hread | exact Hall |].
  destruct (selectAll_maps_back f steps [] ([], []) []
              (conj eq_refl eq_refl) He) as (acc' & indices' & Hs & Hf & Hm).
  simpl in Hs.
  destruct f; [exact Hall | exact Hread | | | | |];
    unfold filterEffect; rewrite Hs; simpl;
    eexists; exists indices'; (split; [reflexivity|]); split; assumption.
Qed.

Lemma step_map_points_back_witness :
  exists v indices,
    filterEffect video [Summary; Video; Results; Quiz; Video] 2 = Ok v /\
    map Some (filteredSteps v) =
      map (nth_error [Summary; Video; Results; Quiz; Video]) indices /\
    stepMap v = combine (seq 0 (List.length indices)) indices.
Proof.
  apply (step_map_points_back video [Summary; Video; Results; Quiz; Video] 2).
  right. right. reflexivity.
Defined.

Lemma selected_non_element (f : ContentType) (step : node) :
  throwing_filter f = true -> is_element step = false ->
  exists m, selected f step = Throw m.
Proof.
  intros Hf He.
  destruct step; try discriminate He; destruct f; try discriminate Hf;
    eexists; reflexivity.
Qed.

Lemma selectAll_throws (f : ContentType) (steps : list node) (step : node) :
  throwing_filter f = true -> In step steps -> is_element step = false ->
  forall acc index, exists m, selectAll f acc index steps = Throw m.
Proof.
  intros Hf Hin He. induction steps as [|a rest IH]; [easy|].
  intros acc index. simpl. destruct Hin as [->|Hin].
  - destruct (selected_non_element f step Hf He) as [m Hm].
    rewrite Hm. simpl. eauto.
  - destruct (selected f a) as [b|m]; simpl; [now apply IH | eauto].
Qed.

(** X20: a step that is not an element (null, a string, an array) makes the
    video, quiz, flashcard and consulting filters throw: there the component
    name is read outside the try block.  The reading filter, which reads it
    inside, returns on every list. *)
Theorem other_filters_throw_on_non_element
    (f : ContentType) (steps : list node) (c : nat) (step : node) :
  throwing_filter f = true -> In step steps -> is_element step = false ->
  (exists m, filterEffect f steps c = Throw m) /\
  (exists v, filterEffect reading steps c = Ok v).
Proof.
  intros Hf Hin He. split; [|eexists; reflexivity].
  destruct (selectAll_throws f steps step Hf Hin He ([], []) 0) as [m Hm].
  destruct f; try discriminate; unfold filterEffect; rewrite Hm; simpl; eauto.
Qed.

Lemma other_filters_throw_on_non_element_witness :
  (exists m, filterEffect quiz [Summary; Empty; Quiz] 0 = Throw m) /\
  (exists v, filterEffect reading [Summary; Empty; Quiz] 0 = Ok v).
Proof.
  apply (other_filters_throw_on_non_element quiz [Summary; Empty; Quiz] 0 Empty).
  - reflexivity.
  - right. left. reflexivity.
  - reflexivity.
Defined.

Lemma finish_in_range (c : nat) (acc : list node * list (nat * nat)) :
  fst acc <> [] ->
  currentStep (finish c acc) < List.length (filteredSteps (finish c acc)).
Proof.
  unfold finish. simpl. destruct (fst acc); [easy|]. simpl. lia.
Qed.

(** X21: the focused position always designates a displayed step: after the
    filter effect has run and found steps, [currentStep] is inside
    [filteredSteps] (for "all", provided it was inside [steps]), and the
    previous and next buttons keep it inside. *)
Theorem current_step_stays_in_range :
  (forall f steps c v,
      filterEffect f steps c = Ok v -> filteredSteps v <> [] ->
      (f = all -> c < List.length steps) ->
      currentStep v < List.length (filteredSteps v)) /\
  (forall (l : list node) c,
      c < List.length l ->
      goToNextStep l c < List.length l /\ goToPrevStep c < List.length l).
Proof.
  split.
  - intros f steps c v H Hne Hall.
    destruct f; unfold filterEffect in H;
      try (destruct (selectAll _ _ _ _) as [acc|m]; [|discriminate]);
      simpl in H; injection H as <-;
      try (apply finish_in_range; exact Hne).
    simpl. now apply Hall.
  - intros l c H. unfold goToNextStep, goToPrevStep. split.
    + destruct (Z.ltb_spec (Z.of_nat c) (Z.of_nat (List.length l) - 1)); lia.
    + destruct (Nat.ltb 0 c); lia.
Qed.

Lemma current_step_stays_in_range_witness :
  goToNextStep [Summary; Concepts; Results] 2 < 3 /\ goToPrevStep 2 < 3.
Proof.
  apply (proj2 current_step_stays_in_range [Summary; Concepts; Results] 2).
  simpl. lia.
Defined.

End JourneyExtras.

(** ** The document source of the paper page *)

Module PaperDetailsExtras.

Import PaperDetails Samples.

Lemma getItem_removed (k : string) (st : storage) :
  getItem k (removeItem k st) = None.
Proof.
  induction st as [|[k' v] st IH]; simpl; [reflexivity|].
  destruct (String.eqb k k') eqn:E; simpl; [exact IH | now rewrite E].
Qed.

Lemma getItem_remove_other (k k' : string) (st : storage) :
  k <> k' -> getItem k (removeItem k' st) = getItem k st.
Proof.
  intros H. induction st as [|[k0 v] st IH]; simpl; [reflexivity|].
  destruct (String.eqb k' k0) eqn:E; simpl.
  - apply String.eqb_eq in E. subst k0.
    apply String.eqb_neq in H. now rewrite H.
  - now rewrite IH.
Qed.

Lemma getItem_remove_none (k k' : string) (st : storage) :
  getItem k st = None -> getItem k (removeItem k' st) = None.
Proof.
  induction st as [|[k0 v] st IH]; simpl; [reflexivity|].
  destruct (String.eqb k k0) eqn:E; [discriminate|]. intros H.
  destruct (String.eqb k' k0); simpl; [now apply IH | now rewrite E, IH].
Qed.

(** X22: once the paper carries a [pdf_url] or a [source_url], the viewer
    shows it whatever content is cached, the two storage entries of the paper
    are removed and every other entry is kept; a later restore from storage
    then finds nothing and leaves the cached content as it is. *)
Theorem backend_url_wins_and_clears_cache
    (createObjectURL : string -> string) (p : obj) (cachedContent : cached)
    (contentType : option kind) (id : value) (st : storage) :
  truthy (or_else (lookup "pdf_url" p) (lookup "source_url" p)) = true ->
  truthy id = true ->
  exists st',
    pdfSource createObjectURL (Some p) cachedContent contentType id st =
      Ok (FromPaper (or_else (lookup "pdf_url" p) (lookup "source_url" p)), st')
    /\ getItem (contentKey id) st' = None
    /\ getItem (typeKey id) st' = None
    /\ (forall k, k <> contentKey id -> k <> typeKey id ->
                  getItem k st' = getItem k st)
    /\ (forall cur, restoreEffect None id st' cur = cur).
Proof.
  intros Hu Hid. unfold pdfSource. rewrite Hu, Hid.
  eexists. split; [reflexivity|].
  assert (Ht : getItem (typeKey id)
                 (removeItem (typeKey id) (removeItem (contentKey id) st)) = None)
    by apply getItem_removed.
  repeat split.
  - apply getItem_remove_none, getItem_removed.
  - exact Ht.
  - intros k Hc Hty. now rewrite !getItem_remove_other.
  - intros cur. unfold restoreEffect. now rewrite Ht.
Qed.

Lemma backend_url_wins_and_clears_cache_witness :
  exists st',
    pdfSource (fun h => h) (Some paperA) (Str "https://cache.example/a.pdf")
              (Some KUrl) (VStr "A")
              [("paper_A_content", "https://cache.example/a.pdf");
               ("paper_A_content_type", "url"); ("theme", "dark")] =
      Ok (FromPaper (or_else (lookup "pdf_url" paperA)
                             (lookup "source_url" paperA)), st')
    /\ getItem (contentKey (VStr "A")) st' = None
    /\ getItem (typeKey (VStr "A")) st' = None
    /\ (forall k, k <> contentKey (VStr "A") -> k <> typeKey (VStr "A") ->
                  getItem k st' =
                  getItem k [("paper_A_content", "https://cache.example/a.pdf");
                             ("paper_A_content_type", "url"); ("theme", "dark")])
    /\ (forall cur, restoreEffect None (VStr "A") st' cur = cur).
Proof.
  apply (backend_url_wins_and_clears_cache (fun h => h) paperA
           (Str "https://cache.example/a.pdf") (Some KUrl) (VStr "A")
           [("paper_A_content", "https://cache.example/a.pdf");
            ("paper_A_content_type", "url"); ("theme", "dark")]);
    reflexivity.
Defined.

(** X23: the storage round trip: with no content in the navigation state,
    the restore effect brings back the URL stored for the paper when its
    stored type is "url" and the URL is not empty, and it is that URL that
    the viewer shows while the paper has no URL of its own. *)
Theorem stored_url_is_restored_and_shown
    (createObjectURL : string -> string) (paper : option obj) (id : value)
    (st : storage) (storedUrl : string) (cur : cached * option kind) :
  getItem (typeKey id) st = Some "url"%string ->
  getItem (contentKey id) st = Some storedUrl ->
  storedUrl <> ""%string ->
  match paper with
  | Some p => truthy (or_else (lookup "pdf_url" p) (lookup "source_url" p))
  | None => false
  end = false ->
  restoreEffect None id st cur = (Str storedUrl, Some KUrl) /\
  pdfSource createObjectURL paper
            (fst (restoreEffect None id st cur))
            (snd (restoreEffect None id st cur)) id st =
    Ok (FromCache (Str storedUrl), st).
Proof.
  intros Ht Hc Hne Hp. apply String.eqb_neq in Hne.
  assert (Hr : restoreEffect None id st cur = (Str storedUrl, Some KUrl)).
  { unfold restoreEffect. rewrite Ht, Hc. now rewrite Hne. }
  split; [exact Hr|]. rewrite Hr. unfold pdfSource. simpl.
  destruct paper as [p|].
  - rewrite Hp. now rewrite Hne.
  - simpl. now rewrite Hne.
Qed.

Lemma stored_url_is_restored_and_shown_witness :
  let st := [("paper_B_content", "https://cache.example/b.pdf");
             ("paper_B_content_type", "url")]%string in
  restoreEffect None (VStr "B") st (NoContent, None) =
    (Str "https://cache.example/b.pdf", Some KUrl) /\
  pdfSource (fun h => h) (Some paperB_without_url)
            (fst (restoreEffect None (VStr "B") st (NoContent, None)))
            (snd (restoreEffect None (VStr "B") st (NoContent, None)))
            (VStr "B") st =
    Ok (FromCache (Str "https://cache.example/b.pdf"), st).
Proof.
  apply (stored_url_is_restored_and_shown (fun h => h)
           (Some paperB_without_url) (VStr "B")
           [("paper_B_content", "https://cache.example/b.pdf");
            ("paper_B_content_type", "url")]%string
           "https://cache.example/b.pdf" (NoContent, None));
    try reflexivity. discriminate.
Defined.

End PaperDetailsExtras.

(** ** Unrecognized type tags on raw payloads *)

Module UnrecognizedClaims.

Import Items ItemsSpec ItemsFacts ItemsPayload Samples.

Lemma rows_of_objects (rows : list obj) : rows_of (map VObj rows) = Ok rows.
Proof.
  induction rows as [|r rows IH]; simpl; [reflexivity|]. now rewrite IH.
Qed.

(** C2, as stated, fails: the INSERT handler appends without looking.  After
    an initial load that already holds the row [i5], of the unrecognized type
    "slides", an INSERT notification for [i5] leaves two items with that
    identifier in the full list. *)
Lemma insert_of_fetched_row_duplicates :
  let s := onInsert (at_time "T1") (row "i5" "slides")
             (onFetched (fun _ => at_time "T0")
                        (Some [row "i1" "quiz"; row "i5" "slides"]) initial) in
  map item_id (learningItems s) = [VStr "i1"; VStr "i5"; VStr "i5"] /\
  ~ once (transformPayload (at_time "T1") (row "i5" "slides"))
         (learningItems s).
Proof.
  split; [reflexivity|].
  intros (l1 & l2 & E & A1 & A2).
  destruct l1 as [|a [|b [|c l1]]]; vm_compute in E.
  - discriminate E.
  - injection E; intros; subst.
    apply (A2 _ (or_introl eq_refl)). reflexivity.
  - injection E; intros; subst.
    apply (A1 _ (or_intror (or_introl eq_refl))). reflexivity.
  - injection E; intros E' _ _ _. destruct l1; discriminate E'.
Qed.

(** C2, amended: an item whose type tag is none of the six recognized tags
    is kept in the full list and in none of the six lists, and processing it
    raises no error.  After the initial load of rows among which it is the
    only one with its identifier, its transformation is in the full list
    exactly once, no list holds an item with its identifier, and no error is
    recorded.  The INSERT handler returns, appends the transformed item to
    the full list whatever the list holds, and leaves the six lists as they
    are; so, in a state that holds no item with its identifier, the item is
    in the full list exactly once and in none of the six lists. *)
Theorem unrecognized_item_kept_once_when_fresh :
  (forall clk before r after s,
      unrecognized (item_type r) ->
      absent (item_id r) before -> absent (item_id r) after ->
      let s' := handleFetched clk (Some (map VObj (before ++ r :: after))) s in
      once (transformFetched (clk (List.length before)) r) (learningItems s') /\
      (forall b, absent (item_id r) (bucket_items b s')) /\
      error s' = error s) /\
  (forall clk raw s,
      unrecognized (item_type raw) ->
      exists s',
        handleInsert clk (VObj raw) s = Ok s' /\
        learningItems s' = learningItems s ++ [transformPayload clk raw] /\
        (forall b, bucket_items b s' = bucket_items b s) /\
        (absent (item_id raw) (learningItems s) ->
         (forall b, absent (item_id raw) (bucket_items b s)) ->
         once (transformPayload clk raw) (learningItems s') /\
         forall b, absent (item_id raw) (bucket_items b s'))).
Proof.
  split.
  - intros clk before r after s Hu Hb Ha s'.
    assert (Hs : s' = onFetched clk (Some (before ++ r :: after)) s)
      by (subst s'; unfold handleFetched; now rewrite rows_of_objects).
    rewrite Hs.
    destruct (proj1 ItemsClaims.unrecognized_type_kept_outside_buckets
                clk before r after s Hu Hb Ha) as [H1 H2].
    repeat split; [exact H1 | exact H2].
  - intros clk raw s Hu. exists (onInsert clk raw s).
    assert (Hn := proj2 (bucket_of_None _) Hu).
    split; [reflexivity|]. split; [|split].
    + unfold onInsert. now rewrite learningItems_switch.
    + intros b. unfold onInsert.
      now rewrite bucket_items_switch, Hn, bucket_items_setLearningItems.
    + intros HL HB.
      exact (proj2 ItemsClaims.unrecognized_type_kept_outside_buckets
               clk raw s Hu HL HB).
Qed.

Lemma unrecognized_item_kept_once_when_fresh_witness :
  (let s' := handleFetched (fun _ => at_time "T0")
               (Some (map VObj ([row "i1" "quiz"] ++ row "i5" "slides" ::
                                [row "i2" "video"]))) initial in
   once (transformFetched (at_time "T0") (row "i5" "slides"))
        (learningItems s') /\
   (forall b, absent (VStr "i5") (bucket_items b s')) /\
   error s' = None) /\
  (exists s',
      handleInsert (at_time "T1") (VObj (row "i5" "slides")) loaded = Ok s' /\
      learningItems s' =
        learningItems loaded ++ [transformPayload (at_time "T1")
                                                  (row "i5" "slides")] /\
      (forall b, bucket_items b s' = bucket_items b loaded) /\
      (absent (VStr "i5") (learningItems loaded) ->
       (forall b, absent (VStr "i5") (bucket_items b loaded)) ->
       once (transformPayload (at_time "T1") (row "i5" "slides"))
            (learningItems s') /\
       forall b, absent (VStr "i5") (bucket_items b s'))).
Proof.
  split.
  - apply (proj1 unrecognized_item_kept_once_when_fresh
             (fun _ => at_time "T0") [row "i1" "quiz"] (row "i5" "slides")
             [row "i2" "video"] initial).
    + intros []; discriminate.
    + intros y [<-|[]]; discriminate.
    + intros y [<-|[]]; discriminate.
  - apply (proj2 unrecognized_item_kept_once_when_fresh
             (at_time "T1") (row "i5" "slides") loaded).
    intros []; discriminate.
Defined.

End UnrecognizedClaims.

(** ** The reading sequence by kind *)

Module ReadingClaims.

Import Journey JourneySpec ReadingKinds MoreSamples.

Lemma title_or_name_element ty title children (t n : string) :
  exists b, title_or_name (Element ty title children) t n = Ok b.
Proof.
  unfold title_or_name. destruct (includes _ _); [eauto|].
  destruct ty; simpl; eauto.
Qed.

(** The order numbers are those of the four kinds, in the sequence
    summary, key concepts, methodology, results. *)
Lemma has_order_kinds (step : node) :
  has_order 1 step = is_summary step /\
  has_order 2 step = is_concepts step /\
  has_order 3 step = is_methodology step /\
  has_order 4 step = is_results step.
Proof.
  destruct step as [| s | ty title children | l];
    try (repeat split; reflexivity).
  unfold has_order, reading_order, classify, is_results, is_methodology,
    is_concepts, is_summary, shows.
  destruct (title_or_name_element ty title children
              "Paper Summary" "SummaryStep") as [b1 ->].
  destruct (title_or_name_element ty title children
              "Key Concepts" "KeyConceptsStep") as [b2 ->].
  destruct (title_or_name_element ty title children
              "Methodology" "MethodologyStep") as [b3 ->].
  destruct (title_or_name_element ty title children
              "Results" "ResultsStep") as [b4 ->].
  destruct b1, b2, b3, b4; repeat split; reflexivity.
Qed.

Lemma filter_kinds (steps : list node) :
  filter (has_order 1) steps = filter is_summary steps /\
  filter (has_order 2) steps = filter is_concepts steps /\
  filter (has_order 3) steps = filter is_methodology steps /\
  filter (has_order 4) steps = filter is_results steps.
Proof.
  repeat split; apply filter_ext; intros a; apply has_order_kinds.
Qed.

Lemma selectAll_returned (f : ContentType) (steps : list node) :
  forall acc index acc',
    selectAll f acc index steps = Ok acc' ->
    fst acc' = fst acc ++ filter (keeps f) steps.
Proof.
  induction steps as [|a rest IH]; intros acc index acc' H; simpl in H.
  - injection H as <-. now rewrite app_nil_r.
  - destruct (selected f a) as [b|m] eqn:E; [|discriminate H].
    simpl in H. apply IH in H. rewrite H.
    assert (Hk : keeps f a = b) by (unfold keeps; now rewrite E).
    cbn [filter]. rewrite Hk.
    destruct b; simpl; [now rewrite <- app_assoc | reflexivity].
Qed.

Lemma filter_true (steps : list node) : filter (fun _ => true) steps = steps.
Proof. induction steps as [|a l IH]; simpl; [reflexivity | now rewrite IH]. Qed.

(** C8: the reading filter returns on every list, and yields the summary
    steps, then the key-concepts steps, then the methodology steps, then the
    results steps (a kind being read off the title or the component name, the
    first that matches), each group in original order and no other step.
    Every other filter, whenever it returns, yields the steps it displays in
    their original order, and it returns on every list of elements.  In
    particular [Summary; Video; Results; Concepts] filtered by "reading" is
    [Summary; Concepts; Results], and
    [Results; Methodology; Video; Concepts; Summary] is
    [Summary; Concepts; Methodology; Results]. *)
Theorem reading_sequence_and_original_order :
  (forall steps c, exists v,
      filterEffect reading steps c = Ok v /\
      filteredSteps v =
        filter is_summary steps ++ filter is_concepts steps ++
        filter is_methodology steps ++ filter is_results steps) /\
  (forall f steps c v,
      f <> reading -> filterEffect f steps c = Ok v ->
      filteredSteps v = filter (shown f) steps) /\
  (forall f steps c,
      forallb is_element steps = true ->
      exists v, filterEffect f steps c = Ok v) /\
  (forall c, exists v,
      filterEffect reading [Summary; Video; Results; Concepts] c = Ok v /\
      filteredSteps v = [Summary; Concepts; Results]) /\
  (forall c, exists v,
      filterEffect reading [Results; Methodology; Video; Concepts; Summary] c
        = Ok v /\
      filteredSteps v = [Summary; Concepts; Methodology; Results]).
Proof.
  split; [|split; [|split; [|split]]].
  - intros steps c.
    destruct (proj1 JourneyClaims.filtered_steps_order steps c)
      as (v & Hv & Hf).
    exists v. split; [exact Hv|]. rewrite Hf.
    destruct (filter_kinds steps) as (-> & -> & -> & ->). reflexivity.
  - intros f steps c v Hr H.
    destruct f; try (now elim Hr); unfold filterEffect in H;
      try (destruct (selectAll _ _ _ _) as [acc|m] eqn:E; [|discriminate H];
           simpl in H; injection H as <-; cbn [filteredSteps finish];
           now rewrite (selectAll_returned _ _ _ _ _ E)).
    injection H as <-. simpl. symmetry. apply filter_true.
  - intros f steps c He.
    destruct (JourneyClaims.selectAll_elements f steps He ([], []) 0)
      as [m Hm].
    destruct f; unfold filterEffect; try rewrite Hm; simpl; eexists;
      reflexivity.
  - intros c. eexists. split; reflexivity.
  - intros c. eexists. split; reflexivity.
Qed.

Lemma reading_sequence_and_original_order_witness :
  filteredSteps
    {| filteredSteps := [Video; Video]; stepMap := [(0, 1); (1, 4)];
       currentStep := 0 |} =
  filter (shown video) [Summary; Video; Results; Quiz; Video] /\
  exists v, filterEffect quiz [Summary; Video; Results; Quiz; Video] 2 = Ok v.
Proof.
  split.
  - apply (proj1 (proj2 reading_sequence_and_original_order) video
             [Summary; Video; Results; Quiz; Video] 2);
      [discriminate | reflexivity].
  - apply (proj1 (proj2 (proj2 reading_sequence_and_original_order)) quiz
             [Summary; Video; Results; Quiz; Video] 2).
    reflexivity.
Defined.

End ReadingClaims.
